(** * Weather-App: the acquisition and normalisation pipeline of [src/App.tsx]

    A shallow embedding of the non-visual part of [App.tsx]: the condition
    classifier ([classifyBackground]), the two geocoders ([geocodeCity],
    [reverseGeocode]), the forecast fetcher with its daily aggregation
    ([fetchWeatherFree]) and the four intents of the [useWeather] hook
    ([handleUnitsChange], the mount effect, [searchByCity],
    [refreshWithGeo]).

    Conventions of the embedding.
    - A JSON/JS [number] is a [Z].  The code only copies, compares and takes
      [Math.min]/[Math.max] of the numbers it receives, so integers (for
      instance temperatures in hundredths of a degree) lose nothing; [NaN]
      and missing numeric fields are outside the TypeScript interfaces and
      outside the model.
    - A JS string is a [string] holding its UTF-8 encoding, which is what a
      string literal of this file holds.
    - A thrown value is an [Exn] (name and message of an [Error] object); an
      [async] function is a computation in the monad [Async], which records
      the requests and the React state updates it performs, in order, and
      ends in [Ok v] or [Throw e].
    - What the network and the browser answer is the input of the model: a
      [World].  Every request of a [fetch] is answered or fails: a request
      that never settles is outside the model.  A position request may be
      answered, refused, or left unanswered for ever.
    - A [Date] holds the time values within 8.64e15 milliseconds of the
      epoch; beyond, it is invalid and its getters give [NaN], which is
      [None] here. *)

From Stdlib Require Import ZArith List String Ascii Bool Lia DecimalString.
Import ListNotations.
Open Scope string_scope.
Open Scope Z_scope.

Set Implicit Arguments.

(** ** Types of [App.tsx] *)

Definition number := Z.

Inductive Units := metric | imperial.

Definition WeatherMain := string.

Inductive BackgroundKind := sunny | rain | snow | storm | cloudy.

Inductive FetchState := idle | loading | success | error.

(** ['city' | 'geo']. *)
Inductive SearchMode := city_mode | geo_mode.

Definition Units_eqb (a b : Units) : bool :=
  match a, b with
  | metric, metric | imperial, imperial => true
  | _, _ => false
  end.

(** An element of a [weather] array. *)
Record WeatherEntry := {
  w_id : number;
  w_main : WeatherMain;
  w_description : string;
  w_icon : string
}.

(** ** Condition classifier *)

(** [Array.prototype.includes] on an array of strings. *)
Fixpoint includes (xs : list string) (x : string) : bool :=
  match xs with
  | [] => false
  | y :: ys => String.eqb y x || includes ys x
  end.

Definition classifyBackground (main : WeatherMain) (weatherId : number) : BackgroundKind :=
  if (weatherId >=? 200) && (weatherId <? 300) then storm
  else if (weatherId >=? 600) && (weatherId <? 700) then snow
  else if (weatherId >=? 500) && (weatherId <? 600) then rain
  else if weatherId =? 800 then sunny
  else if (weatherId =? 801) || (weatherId =? 802) then sunny
  else if (weatherId >=? 803) && (weatherId <=? 804) then cloudy
  else if includes ["Drizzle"; "Rain"] main then rain
  else if includes ["Snow"] main then snow
  else if includes ["Thunderstorm"] main then storm
  else cloudy.

(** No numeric rule of the classifier applies to [code]. *)
Definition no_code_rule (code : number) : Prop :=
  ~ (200 <= code < 300) /\ ~ (500 <= code < 700) /\ ~ (800 <= code <= 804).

(** ** Strings of the runtime *)

(** White space removed by [String.prototype.trim]: the WhiteSpace and
    LineTerminator code points of ECMAScript, by the length of their UTF-8
    encoding.  One byte: tab, line feed, vertical tab, form feed, carriage
    return (9 to 13) and space (32). *)
Definition is_space (c : ascii) : bool :=
  let n := N_of_ascii c in
  ((n =? 32) || ((9 <=? n) && (n <=? 13)))%N.

(** Two bytes: U+00A0 (C2 A0). *)
Definition is_space2 (c1 c2 : ascii) : bool :=
  ((N_of_ascii c1 =? 194) && (N_of_ascii c2 =? 160))%N.

(** Three bytes: U+1680 (E1 9A 80), U+2000 to U+200A (E2 80 80 to 8A),
    U+2028 and U+2029 (E2 80 A8, A9), U+202F (E2 80 AF), U+205F (E2 81 9F),
    U+3000 (E3 80 80) and U+FEFF (EF BB BF). *)
Definition is_space3 (c1 c2 c3 : ascii) : bool :=
  let a := N_of_ascii c1 in
  let b := N_of_ascii c2 in
  let c := N_of_ascii c3 in
  (((a =? 225) && (b =? 154) && (c =? 128)) ||
   ((a =? 226) && (b =? 128) &&
    (((128 <=? c) && (c <=? 138)) || (c =? 168) || (c =? 169) || (c =? 175))) ||
   ((a =? 226) && (b =? 129) && (c =? 159)) ||
   ((a =? 227) && (b =? 128) && (c =? 128)) ||
   ((a =? 239) && (b =? 187) && (c =? 191)))%N.

(** Stripping from the front the characters that [p1], [p2] and [p3]
    recognise by their one, two or three bytes. *)
Section Strip.
Variable p1 : ascii -> bool.
Variable p2 : ascii -> ascii -> bool.
Variable p3 : ascii -> ascii -> ascii -> bool.

(** The rest of [s] after one recognised character, if [s] begins with one. *)
Definition strip_one (s : string) : option string :=
  match s with
  | String c1 s1 =>
      if p1 c1 then Some s1
      else
        match s1 with
        | String c2 s2 =>
            if p2 c1 c2 then Some s2
            else
              match s2 with
              | String c3 s3 => if p3 c1 c2 c3 then Some s3 else None
              | EmptyString => None
              end
        | EmptyString => None
        end
  | EmptyString => None
  end.

Fixpoint strip_all (s : string) : string :=
  match s with
  | String c1 s1 =>
      if p1 c1 then strip_all s1
      else
        match s1 with
        | String c2 s2 =>
            if p2 c1 c2 then strip_all s2
            else
              match s2 with
              | String c3 s3 => if p3 c1 c2 c3 then strip_all s3 else s
              | EmptyString => s
              end
        | EmptyString => s
        end
  | EmptyString => s
  end.
End Strip.

Fixpoint string_rev (s : string) : string :=
  match s with
  | EmptyString => EmptyString
  | String c s' => string_rev s' ++ String c EmptyString
  end.

Definition trimStart (s : string) : string :=
  strip_all is_space is_space2 is_space3 s.

(** From the end: the same on the reversed string, where the bytes of a
    character come last first. *)
Definition trimEnd (s : string) : string :=
  string_rev
    (strip_all is_space (fun c2 c1 => is_space2 c1 c2)
       (fun c3 c2 c1 => is_space3 c1 c2 c3) (string_rev s)).

Definition trim (s : string) : string := trimEnd (trimStart s).

(** [String(n)] and [`${n}`] for an integer [n]. *)
Definition string_of_number (n : number) : string :=
  NilZero.string_of_int (Z.to_int n).

(** [a || b] on strings: the empty string is falsy. *)
Definition str_or (a : option string) (b : string) : string :=
  match a with
  | Some s => if (s =? "")%string then b else s
  | None => b
  end.

(** [parts.join(', ')]. *)
Fixpoint join_comma (parts : list string) : string :=
  match parts with
  | [] => ""
  | [p] => p
  | p :: ps => p ++ ", " ++ join_comma ps
  end.

(** ** Thrown values and asynchronous computations *)

Record Exn := mkExn { exn_name : string; exn_message : string }.

(** [new Error(msg)]. *)
Definition Error (msg : string) : Exn := mkExn "Error" msg.

(** What V8 throws for [head.main] when [head] is [undefined]. *)
Definition TypeError_undefined (prop : string) : Exn :=
  mkExn "TypeError"
    ("Cannot read properties of undefined (reading '" ++ prop ++ "')").

(** [Error.prototype.toString]. *)
Definition exn_toString (e : Exn) : string :=
  if (exn_message e =? "")%string then exn_name e
  else if (exn_name e =? "")%string then exn_message e
  else exn_name e ++ ": " ++ exn_message e.

Inductive Result (A : Type) :=
| Ok (a : A)
| Throw (e : Exn).
Arguments Throw {A} e.

(** The in-body status [cod], which providers send as a number or as a
    string. *)
Inductive Cod := CodNum (n : number) | CodStr (s : string).

Record GeocodingResult := {
  g_name : string;
  g_lat : number;
  g_lon : number;
  g_country : option string;
  g_state : option string
}.

(** The JSON body of the geocoding endpoints: an array of candidates, or an
    object (an error payload) of which the code reads [message] and [cod]. *)
Inductive GeoJson :=
| GeoArray (data : list GeocodingResult)
| GeoObject (message : option string) (cod : option Cod).

Record CurrentWeatherResponse := {
  c_coord_lat : number;
  c_coord_lon : number;
  c_weather : list WeatherEntry;
  c_main_temp : number;
  c_main_feels_like : number;
  c_main_humidity : number;
  c_wind_speed : number;
  c_sys_sunrise : number;
  c_sys_sunset : number;
  c_dt : number;
  c_timezone : option number;
  c_cod : option Cod;
  c_message : option string
}.

Record ForecastItem := {
  f_dt : number;
  f_temp : number;
  f_temp_min : number;
  f_temp_max : number;
  f_weather : list WeatherEntry
}.

Record ForecastResponse := {
  fr_list : option (list ForecastItem);   (* [None]: not an array *)
  fr_city_timezone : option number;
  fr_cod : option Cod;
  fr_message : option string
}.

Record OneCallCurrent := {
  oc_dt : number;
  oc_sunrise : number;
  oc_sunset : number;
  oc_temp : number;
  oc_feels_like : number;
  oc_humidity : number;
  oc_wind_speed : number;
  oc_weather : list WeatherEntry
}.

Record OneCallDaily := {
  d_dt : number;
  d_min : number;
  d_max : number;
  d_day : number;
  d_weather : list WeatherEntry
}.

Record OneCallResponse := {
  o_lat : number;
  o_lon : number;
  o_timezone : string;
  o_timezone_offset : number;
  o_current : OneCallCurrent;
  o_daily : list OneCallDaily
}.

Record ResolvedWeather := {
  locationName : string;
  countryCode : option string;
  current : OneCallCurrent;
  daily : list OneCallDaily;
  timezoneOffset : number;
  lat : number;
  lon : number
}.

(** A [Response] of [fetch]: [resp_json] is what [await resp.json()] gives,
    [resp_text] what [await resp.text()] gives. *)
Record Response (A : Type) := {
  resp_ok : bool;
  resp_status : number;
  resp_json : Result A;
  resp_text : Result string
}.

Inductive Request :=
| GetGeocode (q : string) (appid : string)
| GetReverse (lat lon : number) (appid : string)
| GetCurrent (lat lon : number) (appid : string) (units : Units)
| GetForecast (lat lon : number) (appid : string) (units : Units).

(** What a computation does that can be observed: requests, the device
    position being asked for, and calls of the React state setters. *)
Inductive Event :=
| Fetch (r : Request)
| GetCurrentPosition
| SetUnits (u : Units)
| SetSearchMode (m : SearchMode)
| SetBackgroundKind (b : BackgroundKind)
| SetFetchState (f : FetchState)
| SetError (e : option string)
| SetWeather (w : ResolvedWeather).

Definition Async (A : Type) : Type := list Event * Result A.

Definition ret {A} (a : A) : Async A := ([], Ok a).

Definition throw {A} (e : Exn) : Async A := ([], Throw e).

Definition bind {A B} (m : Async A) (k : A -> Async B) : Async B :=
  match m with
  | (l, Ok a) => let (l', r) := k a in ((l ++ l')%list, r)
  | (l, Throw e) => (l, Throw e)
  end.

Definition emit (ev : Event) : Async unit := ([ev], Ok tt).

(** [try { body } catch (err) { handler }]. *)
Definition try_catch {A} (body : Async A) (handler : Exn -> Async A) : Async A :=
  match body with
  | (l, Ok a) => (l, Ok a)
  | (l, Throw e) => let (l', r) := handler e in ((l ++ l')%list, r)
  end.

(** [await p] for a promise whose outcome is known. *)
Definition await {A} (p : Result A) : Async A := ([], p).

(** [await resp.json().catch(() => ({}))], as the reader of its optional
    fields: the empty object has none. *)
Definition json_or_empty {A B} (json : Result A) (field : A -> option B) : option B :=
  match json with Ok body => field body | Throw _ => None end.

(** [await Promise.all([a, b])]: both are started; when one is rejected
    that rejection is thrown, and when both are rejected the one that came
    first in time, which [second_first] tells. *)
Definition promise_all {A B} (second_first : bool) (a : Async A) (b : Async B)
  : Async (A * B) :=
  let (la, ra) := a in
  let (lb, rb) := b in
  ((la ++ lb)%list,
   match ra, rb with
   | Ok x, Ok y => Ok (x, y)
   | Throw e, Ok _ => Throw e
   | Ok _, Throw e => Throw e
   | Throw e1, Throw e2 => if second_first then Throw e2 else Throw e1
   end).

Declare Scope async_scope.
Delimit Scope async_scope with async.
Notation "x <- m ;; k" := (bind m (fun x => k))
  (at level 61, m at next level, right associativity) : async_scope.
Notation "m ;; k" := (bind m (fun _ => k))
  (at level 61, right associativity) : async_scope.
Open Scope async_scope.

(** ** The world: what the environment, the network and the browser answer *)

(** What becomes of [getCurrentPosition]: the success callback is called,
    the error callback is called, or neither ever is. *)
Inductive PositionOutcome :=
| PositionOk (latitude longitude : number)
| PositionError
| PositionPending.

Record World := {
  env_api_key : option string;       (* import.meta.env.VITE_OPENWEATHER_API_KEY *)
  has_geolocation : bool;            (* navigator.geolocation *)
  position : PositionOutcome;
  http_geocode : string -> Result (Response GeoJson);
  http_reverse : number -> number -> Result (Response GeoJson);
  http_current : number -> number -> Units -> Result (Response CurrentWeatherResponse);
  http_forecast : number -> number -> Units -> Result (Response ForecastResponse);
  (* of two rejected weather requests, the forecast's came first *)
  forecast_rejects_first : number -> number -> Units -> bool
}.

Definition OPENWEATHER_API_KEY (w : World) : string :=
  match env_api_key w with
  | Some k => k
  | None => "b41041e3afb56d1f28980fed79937920"
  end.

(** [fetch(url)]: the request is issued, then the promise settles. *)
Definition fetch {A} (r : Request) (outcome : Result (Response A)) : Async (Response A) :=
  emit (Fetch r) ;; await outcome.

(** [!apiKey || apiKey.length < 20]. *)
Definition api_key_invalid (apiKey : string) : bool :=
  (apiKey =? "")%string || (Nat.ltb (String.length apiKey) 20).

(** ** Geocoder *)

(** [data.length ? data[0] : null] on the parsed body; an object has no
    [length]. *)
Definition first_candidate (data : GeoJson) : option GeocodingResult :=
  match data with
  | GeoArray (x :: _) => Some x
  | _ => None
  end.

(** [errorData.message || errorData.cod || errorMessage], as the text the
    template strings print. *)
Definition geo_error_message (errorData : GeoJson) (errorMessage : string) : string :=
  match errorData with
  | GeoArray _ => errorMessage
  | GeoObject message cod =>
      str_or message
        match cod with
        | Some (CodNum n) => if n =? 0 then errorMessage else string_of_number n
        | Some (CodStr s) => str_or (Some s) errorMessage
        | None => errorMessage
        end
  end.

Definition geocodeCity (w : World) (query : string) : Async (option GeocodingResult) :=
  let apiKey := trim (OPENWEATHER_API_KEY w) in
  if api_key_invalid apiKey then
    throw (Error "API key appears to be invalid or missing")
  else
    try_catch
      (resp <- fetch (GetGeocode (trim query) apiKey) (http_geocode w (trim query)) ;;
       if negb (resp_ok resp) then
         let http := "HTTP " ++ string_of_number (resp_status resp) in
         errorMessage <-
           try_catch
             (errorData <- await (resp_json resp) ;;
              ret (geo_error_message errorData http))
             (fun _ =>
              errorText <- await (resp_text resp) ;;
              ret (str_or (Some errorText) http)) ;;
         if resp_status resp =? 401 then
           throw (Error ("API key authentication failed: " ++ errorMessage ++
             ". Please verify your API key is correct and activated at https://home.openweathermap.org/api_keys"))
         else
           throw (Error ("Geocoding API error (" ++ string_of_number (resp_status resp)
                         ++ "): " ++ errorMessage))
       else
         data <- await (resp_json resp) ;;
         ret (first_candidate data))
      (fun err =>
       if (exn_message err =? "")%string then
         throw (Error ("Failed to geocode city: " ++ exn_toString err))
       else throw err).

Definition reverseGeocode (w : World) (lat lon : number) : Async (option GeocodingResult) :=
  let apiKey := trim (OPENWEATHER_API_KEY w) in
  try_catch
    (resp <- fetch (GetReverse lat lon apiKey) (http_reverse w lat lon) ;;
     if negb (resp_ok resp) then ret None
     else
       data <- await (resp_json resp) ;;
       ret (first_candidate data))
    (fun _ => ret None).

(** ** UTC calendar date of a time value (the [Date] of the runtime) *)

(** [new Date(dt * 1000)] is a valid date when its time value is within
    8.64e15 milliseconds of the epoch; otherwise it is the invalid date, all
    of whose getters return [NaN]. *)
Definition Date_valid (dt : number) : bool :=
  Z.abs (dt * 1000) <=? 8640000000000000.

(** [Day(t)] of ECMAScript for the time value [dt * 1000]. *)
Definition utc_day (dt : number) : Z := (dt * 1000) / 86400000.

(** Year, month (0 to 11) and day of the month (1 to 31) of the day number
    [day] counted from 1970-01-01, in the proleptic Gregorian calendar. *)
Definition civil_from_days (day : Z) : Z * Z * Z :=
  let z := day + 719468 in
  let era := z / 146097 in
  let doe := z - era * 146097 in
  let yoe := (doe - doe / 1460 + doe / 36524 - doe / 146096) / 365 in
  let doy := doe - (365 * yoe + yoe / 4 - yoe / 100) in
  let mp := (5 * doy + 2) / 153 in
  let d := doy - (153 * mp + 2) / 5 + 1 in
  let m := if mp <? 10 then mp + 3 else mp - 9 in
  let y := yoe + era * 400 + (if m <=? 2 then 1 else 0) in
  (y, m - 1, d).

(** The getters of [new Date(dt * 1000)]; [None] is [NaN]. *)
Definition getUTCFullYear (dt : number) : option Z :=
  if Date_valid dt then Some (fst (fst (civil_from_days (utc_day dt)))) else None.

Definition getUTCMonth (dt : number) : option Z :=
  if Date_valid dt then Some (snd (fst (civil_from_days (utc_day dt)))) else None.

Definition getUTCDate (dt : number) : option Z :=
  if Date_valid dt then Some (snd (civil_from_days (utc_day dt))) else None.

(** The key [`${d.getUTCFullYear()}-${d.getUTCMonth()}-${d.getUTCDate()}`] of
    [new Date(dt * 1000)].  Month and day are printed without sign and [NaN]
    is printed as such, so the text determines the three numbers and is
    determined by them: the key is kept as the triple.  The key of every
    invalid date is [NaN-NaN-NaN]. *)
Definition DayKey := (option Z * option Z * option Z)%type.

Definition dayKey (dt : number) : DayKey :=
  (getUTCFullYear dt, getUTCMonth dt, getUTCDate dt).

Definition number_eqb (a b : option Z) : bool :=
  match a, b with
  | Some x, Some y => x =? y
  | None, None => true
  | _, _ => false
  end.

Definition DayKey_eqb (a b : DayKey) : bool :=
  let '(y1, m1, d1) := a in
  let '(y2, m2, d2) := b in
  number_eqb y1 y2 && number_eqb m1 m2 && number_eqb d1 d2.

(** ** The calendar of ECMAScript (the year, month and date of a day) *)

(** [DayFromYear(y)]: the day number of the first day of the year [y]. *)
Definition DayFromYear (y : Z) : Z :=
  365 * (y - 1970) + (y - 1969) / 4 - (y - 1901) / 100 + (y - 1601) / 400.

(** [InLeapYear]: the year has 366 days. *)
Definition InLeapYear (y : Z) : bool :=
  (y mod 4 =? 0) && (negb (y mod 100 =? 0) || (y mod 400 =? 0)).

(** The day within the year on which the month [m] (0 to 11) begins, as in
    the table of [MonthFromTime]; for 12, the length of the year. *)
Definition DayOfMonthStart (leap : bool) (m : Z) : Z :=
  let l := if leap then 1 else 0 in
  match m with
  | 0 => 0 | 1 => 31 | 2 => 59 + l | 3 => 90 + l | 4 => 120 + l | 5 => 151 + l
  | 6 => 181 + l | 7 => 212 + l | 8 => 243 + l | 9 => 273 + l | 10 => 304 + l
  | 11 => 334 + l | _ => 365 + l
  end.

(** [y], [m], [d] are [YearFromTime], [MonthFromTime] and [DateFromTime] of
    the day number [day]: the day lies in the year [y], within it in the
    month [m], and is the [d]-th day of that month. *)
Definition is_utc_date (day y m d : Z) : Prop :=
  DayFromYear y <= day < DayFromYear (y + 1) /\
  0 <= m <= 11 /\ 1 <= d /\
  DayOfMonthStart (InLeapYear y) m + d - 1 < DayOfMonthStart (InLeapYear y) (m + 1) /\
  day = DayFromYear y + DayOfMonthStart (InLeapYear y) m + d - 1.

(** The UTC day of a timestamp in seconds: the number of whole days since
    the epoch, for a timestamp that [Date] can hold; none otherwise. *)
Definition utc_day_of (dt : number) : option Z :=
  if (-8640000000000 <=? dt) && (dt <=? 8640000000000) then Some (dt / 86400)
  else None.

(** ** Daily aggregation inside [fetchWeatherFree] *)

(** The value type of [dailyMap]. *)
Record DayAcc := {
  a_dt : number;
  a_min : number;
  a_max : number;
  a_day : number;
  a_weather : list WeatherEntry
}.

(** A JS [Map] keeps its entries in the order in which their keys were
    first set. *)
Definition DailyMap := list (DayKey * DayAcc).

Fixpoint map_get (m : DailyMap) (k : DayKey) : option DayAcc :=
  match m with
  | [] => None
  | (k', v) :: m' => if DayKey_eqb k' k then Some v else map_get m' k
  end.

(** [m.set(k, v)]; also stands for the assignment to the fields of the
    object stored at [k], which keeps the entry where it is. *)
Fixpoint map_set (m : DailyMap) (k : DayKey) (v : DayAcc) : DailyMap :=
  match m with
  | [] => [(k, v)]
  | (k', v') :: m' =>
      if DayKey_eqb k' k then (k', v) :: m' else (k', v') :: map_set m' k v
  end.

(** One turn of the loop [for (const item of forecastList)]. *)
Definition aggregate_item (dailyMap : DailyMap) (item : ForecastItem) : DailyMap :=
  let dayKey := dayKey (f_dt item) in
  let temp := f_temp item in
  let min := f_temp_min item in
  let max := f_temp_max item in
  match map_get dailyMap dayKey with
  | None =>
      map_set dailyMap dayKey
        {| a_dt := f_dt item; a_min := min; a_max := max; a_day := temp;
           a_weather := f_weather item |}
  | Some existing =>
      map_set dailyMap dayKey
        {| a_dt := a_dt existing;
           a_min := Z.min (a_min existing) min;
           a_max := Z.max (a_max existing) max;
           a_day := temp;
           a_weather := f_weather item |}
  end.

Definition build_dailyMap (forecastList : list ForecastItem) : DailyMap :=
  fold_left aggregate_item forecastList [].

Definition to_daily (entry : DayKey * DayAcc) : OneCallDaily :=
  let v := snd entry in
  {| d_dt := a_dt v; d_min := a_min v; d_max := a_max v; d_day := a_day v;
     d_weather := a_weather v |}.

(** [Array.from(dailyMap.entries()).slice(0, 8).map(...)]. *)
Definition aggregate (forecastList : list ForecastItem) : list OneCallDaily :=
  map to_daily (firstn 8 (build_dailyMap forecastList)).

(** ** Forecast fetcher *)

(** [cod === undefined || cod === 200 || cod === '200']. *)
Definition cod_ok (cod : option Cod) : bool :=
  match cod with
  | None => true
  | Some (CodNum n) => n =? 200
  | Some (CodStr s) => (s =? "200")%string
  end.

(** [forecastOk && Array.isArray(forecast.list) ? forecast.list : []]. *)
Definition forecast_list (forecast : ForecastResponse) : list ForecastItem :=
  if cod_ok (fr_cod forecast) then
    match fr_list forecast with Some l => l | None => [] end
  else [].

(** The entry that stands for the day when there is no forecast. *)
Definition synthetic_daily (current : CurrentWeatherResponse) : OneCallDaily :=
  {| d_dt := c_dt current;
     d_min := c_main_temp current; d_max := c_main_temp current;
     d_day := c_main_temp current;
     d_weather := c_weather current |}.

Definition build_oneCall (current : CurrentWeatherResponse) (forecast : ForecastResponse)
  : OneCallResponse :=
  let forecastList := forecast_list forecast in
  let timezoneOffset :=
    match c_timezone current with
    | Some tz => tz
    | None => match fr_city_timezone forecast with Some tz => tz | None => 0 end
    end in
  let daily := aggregate forecastList in
  {| o_lat := c_coord_lat current;
     o_lon := c_coord_lon current;
     o_timezone := "";
     o_timezone_offset := timezoneOffset;
     o_current :=
       {| oc_dt := c_dt current;
          oc_sunrise := c_sys_sunrise current;
          oc_sunset := c_sys_sunset current;
          oc_temp := c_main_temp current;
          oc_feels_like := c_main_feels_like current;
          oc_humidity := c_main_humidity current;
          oc_wind_speed := c_wind_speed current;
          oc_weather := c_weather current |};
     o_daily :=
       match daily with
       | [] => [synthetic_daily current]
       | _ => daily
       end |}.

Definition fetchWeatherFree (w : World) (lat lon : number) (units : Units)
  : Async OneCallResponse :=
  let apiKey := trim (OPENWEATHER_API_KEY w) in
  if api_key_invalid apiKey then
    throw (Error "API key appears to be invalid or missing")
  else
    resps <- promise_all (forecast_rejects_first w lat lon units)
               (fetch (GetCurrent lat lon apiKey units) (http_current w lat lon units))
               (fetch (GetForecast lat lon apiKey units) (http_forecast w lat lon units)) ;;
    let (currentResp, forecastResp) := resps in
    if negb (resp_ok currentResp) then
      let err := json_or_empty (resp_json currentResp) in
      let msg := str_or (err c_message) ("HTTP " ++ string_of_number (resp_status currentResp)) in
      if resp_status currentResp =? 401 then
        throw (Error ("Invalid API key: " ++ msg ++
                      ". Check your key at https://home.openweathermap.org/api_keys"))
      else throw (Error msg)
    else if negb (resp_ok forecastResp) then
      let err := json_or_empty (resp_json forecastResp) in
      let msg := str_or (err fr_message) ("HTTP " ++ string_of_number (resp_status forecastResp)) in
      throw (Error msg)
    else
      current <- await (resp_json currentResp) ;;
      forecast <- await (resp_json forecastResp) ;;
      if negb (cod_ok (c_cod current)) then
        throw (Error (str_or (c_message current) "Current weather request failed"))
      else ret (build_oneCall current forecast).

Definition fetchOneCall (w : World) (lat lon : number) (units : Units)
  : Async OneCallResponse :=
  fetchWeatherFree w lat lon units.

(** ** The [useWeather] hook *)

Definition buildLocationLabel (geo : option GeocodingResult) (fallback : option string)
  : string :=
  match geo with
  | Some g =>
      let parts := [g_name g] in
      let parts :=
        match g_state g with
        | Some st =>
            if negb (st =? "")%string && negb (st =? g_name g)%string
            then (parts ++ [st])%list else parts
        | None => parts
        end in
      let parts :=
        match g_country g with
        | Some c => if (c =? "")%string then parts else (parts ++ [c])%list
        | None => parts
        end in
      join_comma parts
  | None =>
      match fallback with
      | Some f => f
      | None => "Current location"
      end
  end.

(** The values of the [useState] cells of the hook. *)
Record HookState := {
  s_units : Units;
  s_searchQuery : string;
  s_searchMode : SearchMode;
  s_backgroundKind : BackgroundKind;
  s_fetchState : FetchState;
  s_error : option string;
  s_weather : option ResolvedWeather
}.

Definition initial_state : HookState :=
  {| s_units := metric; s_searchQuery := ""; s_searchMode := city_mode;
     s_backgroundKind := cloudy; s_fetchState := idle; s_error := None;
     s_weather := None |}.

(** The effect of one event on the cells: a setter replaces its cell. *)
Definition apply_event (s : HookState) (ev : Event) : HookState :=
  match ev with
  | Fetch _ | GetCurrentPosition => s
  | SetUnits u =>
      {| s_units := u; s_searchQuery := s_searchQuery s; s_searchMode := s_searchMode s;
         s_backgroundKind := s_backgroundKind s; s_fetchState := s_fetchState s;
         s_error := s_error s; s_weather := s_weather s |}
  | SetSearchMode m =>
      {| s_units := s_units s; s_searchQuery := s_searchQuery s; s_searchMode := m;
         s_backgroundKind := s_backgroundKind s; s_fetchState := s_fetchState s;
         s_error := s_error s; s_weather := s_weather s |}
  | SetBackgroundKind b =>
      {| s_units := s_units s; s_searchQuery := s_searchQuery s; s_searchMode := s_searchMode s;
         s_backgroundKind := b; s_fetchState := s_fetchState s;
         s_error := s_error s; s_weather := s_weather s |}
  | SetFetchState f =>
      {| s_units := s_units s; s_searchQuery := s_searchQuery s; s_searchMode := s_searchMode s;
         s_backgroundKind := s_backgroundKind s; s_fetchState := f;
         s_error := s_error s; s_weather := s_weather s |}
  | SetError e =>
      {| s_units := s_units s; s_searchQuery := s_searchQuery s; s_searchMode := s_searchMode s;
         s_backgroundKind := s_backgroundKind s; s_fetchState := s_fetchState s;
         s_error := e; s_weather := s_weather s |}
  | SetWeather r =>
      {| s_units := s_units s; s_searchQuery := s_searchQuery s; s_searchMode := s_searchMode s;
         s_backgroundKind := s_backgroundKind s; s_fetchState := s_fetchState s;
         s_error := s_error s; s_weather := Some r |}
  end.

(** The events of a computation, and the state it leaves when it starts in
    [s] and nothing else runs in between. *)
Definition trace {A} (m : Async A) : list Event := fst m.

Definition run {A} (s : HookState) (m : Async A) : HookState :=
  fold_left apply_event (trace m) s.

(** [const head = weather[0]; setBackgroundKind(classifyBackground(head.main,
    head.id))]: reading [head.main] throws when the array is empty. *)
Definition setBackgroundKind_of_head (weather : list WeatherEntry) : Async unit :=
  match weather with
  | [] => throw (TypeError_undefined "main")
  | head :: _ => emit (SetBackgroundKind (classifyBackground (w_main head) (w_id head)))
  end.

Definition handleUnitsChange (w : World) (s : HookState) (next : Units) : Async unit :=
  if Units_eqb next (s_units s) then ret tt
  else
    emit (SetUnits next) ;;
    match s_weather s with
    | None => ret tt
    | Some weather =>
        try_catch
          (emit (SetFetchState loading) ;;
           emit (SetError None) ;;
           fresh <- fetchOneCall w (lat weather) (lon weather) next ;;
           setBackgroundKind_of_head (oc_weather (o_current fresh)) ;;
           emit (SetWeather
                   {| locationName := locationName weather;
                      countryCode := countryCode weather;
                      current := o_current fresh;
                      daily := o_daily fresh;
                      timezoneOffset := o_timezone_offset fresh;
                      lat := o_lat fresh;
                      lon := o_lon fresh |}) ;;
           emit (SetFetchState success))
          (fun err =>
           emit (SetFetchState error) ;;
           emit (SetError (Some "Unable to refresh weather for the new unit.")))
    end.

(** The error callback of the mount effect. *)
Definition loadDefaultCity (w : World) (s : HookState) : Async unit :=
  try_catch
    (emit (SetFetchState loading) ;;
     geo <- geocodeCity w "New York" ;;
     match geo with
     | Some geo =>
         oneCall <- fetchOneCall w (g_lat geo) (g_lon geo) (s_units s) ;;
         setBackgroundKind_of_head (oc_weather (o_current oneCall)) ;;
         let locationName := buildLocationLabel (Some geo) (Some (g_name geo)) in
         emit (SetWeather
                 {| locationName := locationName;
                    countryCode := g_country geo;
                    current := o_current oneCall;
                    daily := o_daily oneCall;
                    timezoneOffset := o_timezone_offset oneCall;
                    lat := o_lat oneCall;
                    lon := o_lon oneCall |}) ;;
         emit (SetFetchState success)
     | None => emit (SetFetchState idle)
     end)
    (fun err =>
     emit (SetFetchState idle) ;;
     emit (SetError (Some ("Unable to load default city: " ++
                           str_or (Some (exn_message err)) "Unknown error")))).

(** The body of [useEffect(() => { ... }, [])]. *)
Definition mountEffect (w : World) (s : HookState) : Async unit :=
  if negb (has_geolocation w) then ret tt
  else
    emit (SetFetchState loading) ;;
    emit (SetSearchMode geo_mode) ;;
    emit GetCurrentPosition ;;
    match position w with
    | PositionOk latitude longitude =>
        try_catch
          (oneCall <- fetchOneCall w latitude longitude (s_units s) ;;
           geo <- reverseGeocode w latitude longitude ;;
           setBackgroundKind_of_head (oc_weather (o_current oneCall)) ;;
           let locationName := buildLocationLabel geo (Some "Current location") in
           emit (SetWeather
                   {| locationName := locationName;
                      countryCode :=
                        match geo with Some g => g_country g | None => None end;
                      current := o_current oneCall;
                      daily := o_daily oneCall;
                      timezoneOffset := o_timezone_offset oneCall;
                      lat := o_lat oneCall;
                      lon := o_lon oneCall |}) ;;
           emit (SetFetchState success))
          (fun err =>
           let errorMsg :=
             str_or (Some (exn_message err)) "Unable to get weather for your location." in
           emit (SetFetchState error) ;;
           emit (SetError (Some (errorMsg ++ " Please search for a city instead."))))
    | PositionError => loadDefaultCity w s
    | PositionPending => ret tt
    end.

Definition searchByCity (w : World) (s : HookState) : Async unit :=
  if (trim (s_searchQuery s) =? "")%string then
    emit (SetError (Some "Please enter a city name"))
  else
    try_catch
      (emit (SetFetchState loading) ;;
       emit (SetError None) ;;
       geo <- geocodeCity w (trim (s_searchQuery s)) ;;
       match geo with
       | None =>
           emit (SetFetchState error) ;;
           emit (SetError (Some "No results for that city. Try another name."))
       | Some geo =>
           oneCall <- fetchOneCall w (g_lat geo) (g_lon geo) (s_units s) ;;
           setBackgroundKind_of_head (oc_weather (o_current oneCall)) ;;
           let locationName := buildLocationLabel (Some geo) (Some (g_name geo)) in
           emit (SetWeather
                   {| locationName := locationName;
                      countryCode := g_country geo;
                      current := o_current oneCall;
                      daily := o_daily oneCall;
                      timezoneOffset := o_timezone_offset oneCall;
                      lat := o_lat oneCall;
                      lon := o_lon oneCall |}) ;;
           emit (SetFetchState success) ;;
           emit (SetSearchMode city_mode)
       end)
      (fun err =>
       let errorMsg :=
         str_or (Some (exn_message err)) "Unable to fetch weather for that city." in
       emit (SetFetchState error) ;;
       emit (SetError (Some errorMsg))).

Definition refreshWithGeo (w : World) (s : HookState) : Async unit :=
  if negb (has_geolocation w) then
    emit (SetError (Some "Geolocation is not available in this browser.")) ;;
    emit (SetFetchState error)
  else
    emit (SetFetchState loading) ;;
    emit (SetError None) ;;
    emit (SetSearchMode geo_mode) ;;
    emit GetCurrentPosition ;;
    match position w with
    | PositionOk latitude longitude =>
        try_catch
          (oneCall <- fetchOneCall w latitude longitude (s_units s) ;;
           setBackgroundKind_of_head (oc_weather (o_current oneCall)) ;;
           let locationName := buildLocationLabel None (Some "Current location") in
           emit (SetWeather
                   {| locationName := locationName;
                      countryCode := None;
                      current := o_current oneCall;
                      daily := o_daily oneCall;
                      timezoneOffset := o_timezone_offset oneCall;
                      lat := o_lat oneCall;
                      lon := o_lon oneCall |}) ;;
           emit (SetFetchState success))
          (fun err =>
           emit (SetFetchState error) ;;
           emit (SetError (Some "Unable to refresh weather for your location.")))
    | PositionError =>
        emit (SetFetchState error) ;;
        emit (SetError (Some "Location access was denied."))
    | PositionPending => ret tt
    end.

(** ** The days of a sample sequence *)

Definition item_key (item : ForecastItem) : DayKey := dayKey (f_dt item).

(** The keys of the samples, each once, in the order in which they first
    appear: the keys of [dailyMap] after the loop. *)
Fixpoint days_first_seen (items : list ForecastItem) : list DayKey :=
  match items with
  | [] => []
  | item :: rest =>
      item_key item
        :: filter (fun k => negb (DayKey_eqb (item_key item) k)) (days_first_seen rest)
  end.

(** The samples whose key is [k], in arrival order. *)
Definition day_samples (k : DayKey) (items : list ForecastItem) : list ForecastItem :=
  filter (fun item => DayKey_eqb (item_key item) k) items.

(** Two samples fall on the same UTC day; samples whose timestamp [Date]
    cannot hold all count as falling on one and the same day. *)
Definition same_utc_day (a b : ForecastItem) : bool :=
  number_eqb (utc_day_of (f_dt a)) (utc_day_of (f_dt b)).

(** The first sample of every UTC day, in arrival order. *)
Fixpoint day_leaders (items : list ForecastItem) : list ForecastItem :=
  match items with
  | [] => []
  | item :: rest =>
      item :: filter (fun other => negb (same_utc_day item other)) (day_leaders rest)
  end.

(** The samples that fall on the UTC day of [first], in arrival order. *)
Definition samples_of_day (first : ForecastItem) (items : list ForecastItem)
  : list ForecastItem :=
  filter (fun item => same_utc_day item first) items.

(** [d] is the summary of the samples [g] of one day: its timestamp is the
    first sample's, its minimum and maximum are the least of the samples'
    minima and the greatest of their maxima, and its representative
    temperature and condition are the last sample's. *)
Definition summarises (g : list ForecastItem) (d : OneCallDaily) : Prop :=
  exists first rest,
    g = first :: rest /\
    d_dt d = f_dt first /\
    Forall (fun it => d_min d <= f_temp_min it) g /\
    Exists (fun it => d_min d = f_temp_min it) g /\
    Forall (fun it => f_temp_max it <= d_max d) g /\
    Exists (fun it => d_max d = f_temp_max it) g /\
    d_day d = f_temp (last rest first) /\
    d_weather d = f_weather (last rest first).

(** The accumulator of a new day and the update of an existing one, as the
    two branches of the loop body write them. *)
Definition seed (item : ForecastItem) : DayAcc :=
  {| a_dt := f_dt item; a_min := f_temp_min item; a_max := f_temp_max item;
     a_day := f_temp item; a_weather := f_weather item |}.

Definition widen (existing : DayAcc) (item : ForecastItem) : DayAcc :=
  {| a_dt := a_dt existing;
     a_min := Z.min (a_min existing) (f_temp_min item);
     a_max := Z.max (a_max existing) (f_temp_max item);
     a_day := f_temp item;
     a_weather := f_weather item |}.

Definition no_item : ForecastItem :=
  {| f_dt := 0; f_temp := 0; f_temp_min := 0; f_temp_max := 0; f_weather := [] |}.

(** The accumulator of a day after its samples [g] (non-empty) went through
    the loop. *)
Definition acc_of (g : list ForecastItem) : DayAcc :=
  fold_left widen (tl g) (seed (hd no_item g)).

(** The map after the loop, day by day. *)
Definition dailyMap_of (items : list ForecastItem) : DailyMap :=
  map (fun k => (k, acc_of (day_samples k items))) (days_first_seen items).

(** ** The intents, uniformly *)

(** What the hook hands to the presentation layer ([setUnits], [searchByCity],
    [refreshWithGeo]) together with the effect that runs on mount. *)
Inductive Intent :=
| ChangeUnits (next : Units)
| Mount
| SearchByCity
| RefreshWithGeo.

Definition perform (w : World) (s : HookState) (i : Intent) : Async unit :=
  match i with
  | ChangeUnits next => handleUnitsChange w s next
  | Mount => mountEffect w s
  | SearchByCity => searchByCity w s
  | RefreshWithGeo => refreshWithGeo w s
  end.

Definition outcome {A} (m : Async A) : Result A := snd m.

(** Where an intent calls [fetchOneCall], when it gets that far: the
    coordinates and the unit system of the call. *)
Definition fetch_site (w : World) (s : HookState) (i : Intent)
  : option (number * number * Units) :=
  match i with
  | ChangeUnits next =>
      if Units_eqb next (s_units s) then None
      else match s_weather s with
           | Some weather => Some (lat weather, lon weather, next)
           | None => None
           end
  | Mount =>
      if negb (has_geolocation w) then None
      else match position w with
           | PositionOk latitude longitude => Some (latitude, longitude, s_units s)
           | PositionError =>
               match outcome (geocodeCity w "New York") with
               | Ok (Some g) => Some (g_lat g, g_lon g, s_units s)
               | _ => None
               end
           | PositionPending => None
           end
  | SearchByCity =>
      if (trim (s_searchQuery s) =? "")%string then None
      else match outcome (geocodeCity w (trim (s_searchQuery s))) with
           | Ok (Some g) => Some (g_lat g, g_lon g, s_units s)
           | _ => None
           end
  | RefreshWithGeo =>
      if negb (has_geolocation w) then None
      else match position w with
           | PositionOk latitude longitude => Some (latitude, longitude, s_units s)
           | PositionError | PositionPending => None
           end
  end.

Definition is_network_call (ev : Event) : bool :=
  match ev with
  | Fetch _ => true
  | _ => false
  end.

(** ** The legs of a fetch *)

(** The current-conditions leg succeeds: the request is answered with a 2xx
    status and a body that parses and whose [cod] is absent or 200. *)
Definition current_leg_succeeds (w : World) (lat lon : number) (units : Units)
  (current : CurrentWeatherResponse) : Prop :=
  exists resp,
    http_current w lat lon units = Ok resp /\
    resp_ok resp = true /\
    resp_json resp = Ok current /\
    cod_ok (c_cod current) = true.

(** The forecast leg fails by its HTTP status. *)
Definition forecast_fails_by_status (w : World) (lat lon : number) (units : Units) : Prop :=
  exists resp,
    http_forecast w lat lon units = Ok resp /\
    resp_ok resp = false.

(** The forecast leg fails by the status code in its body. *)
Definition forecast_fails_in_body (w : World) (lat lon : number) (units : Units)
  (forecast : ForecastResponse) : Prop :=
  exists resp,
    http_forecast w lat lon units = Ok resp /\
    resp_ok resp = true /\
    resp_json resp = Ok forecast /\
    cod_ok (fr_cod forecast) = false.

Definition api_key_valid (w : World) : Prop :=
  api_key_invalid (trim (OPENWEATHER_API_KEY w)) = false.

(** ** Sample answers of the providers *)

(** U+00A0, the no-break space, and U+3000, the ideographic space, in
    UTF-8. *)
Definition no_break_space : string :=
  String (ascii_of_nat 194) (String (ascii_of_nat 160) "").

Definition ideographic_space : string :=
  String (ascii_of_nat 227) (String (ascii_of_nat 128) (String (ascii_of_nat 128) "")).

Definition clear_sky : WeatherEntry :=
  {| w_id := 800; w_main := "Clear"; w_description := "clear sky"; w_icon := "01d" |}.

Definition light_rain : WeatherEntry :=
  {| w_id := 500; w_main := "Rain"; w_description := "light rain"; w_icon := "10d" |}.

Definition paris : GeocodingResult :=
  {| g_name := "Paris"; g_lat := 4885; g_lon := 235;
     g_country := Some "FR"; g_state := Some "Ile-de-France" |}.

Definition paris_current : CurrentWeatherResponse :=
  {| c_coord_lat := 4885; c_coord_lon := 235;
     c_weather := [clear_sky];
     c_main_temp := 18; c_main_feels_like := 17; c_main_humidity := 60;
     c_wind_speed := 4;
     c_sys_sunrise := 1699944000; c_sys_sunset := 1699978000;
     c_dt := 1699960000;
     c_timezone := Some 3600; c_cod := Some (CodNum 200); c_message := None |}.

(** The same observation with an empty [weather] array. *)
Definition paris_current_bare : CurrentWeatherResponse :=
  {| c_coord_lat := 4885; c_coord_lon := 235;
     c_weather := [];
     c_main_temp := 18; c_main_feels_like := 17; c_main_humidity := 60;
     c_wind_speed := 4;
     c_sys_sunrise := 1699944000; c_sys_sunset := 1699978000;
     c_dt := 1699960000;
     c_timezone := Some 3600; c_cod := Some (CodNum 200); c_message := None |}.

Definition sample (dt temp lo hi : number) (cond : WeatherEntry) : ForecastItem :=
  {| f_dt := dt; f_temp := temp; f_temp_min := lo; f_temp_max := hi;
     f_weather := [cond] |}.

(** Samples every six hours from 2023-11-14 18:00 UTC: one on the 14th, four
    on the 15th, two on the 16th. *)
Definition paris_samples : list ForecastItem :=
  [ sample 1699984800 15 14 16 clear_sky;
    sample 1700006400 12 11 13 clear_sky;
    sample 1700028000 10 9 12 light_rain;
    sample 1700049600 14 13 17 light_rain;
    sample 1700071200 16 12 19 clear_sky;
    sample 1700092800 11 8 11 light_rain;
    sample 1700114400 9 7 10 clear_sky ].

Definition paris_forecast : ForecastResponse :=
  {| fr_list := Some paris_samples; fr_city_timezone := Some 3600;
     fr_cod := Some (CodStr "200"); fr_message := None |}.

(** A forecast body that reports a failure in its [cod]. *)
Definition failed_forecast : ForecastResponse :=
  {| fr_list := None; fr_city_timezone := None;
     fr_cod := Some (CodStr "404"); fr_message := Some "city not found" |}.

Definition ok_response {A} (body : A) : Response A :=
  {| resp_ok := true; resp_status := 200; resp_json := Ok body; resp_text := Ok "" |}.

Definition error_response {A} (status : number) : Response A :=
  {| resp_ok := false; resp_status := status;
     resp_json := Throw (mkExn "SyntaxError" "Unexpected end of JSON input");
     resp_text := Ok "" |}.

Definition failed_to_fetch : Exn := mkExn "TypeError" "Failed to fetch".

(** A world with the default key, a device at Paris, and the given answers
    of the three kinds of endpoint. *)
Definition world_of
  (geocoding : Result (Response GeoJson))
  (current_conditions : Result (Response CurrentWeatherResponse))
  (forecast : Result (Response ForecastResponse)) : World :=
  {| env_api_key := None;
     has_geolocation := true;
     position := PositionOk 4885 235;
     http_geocode := fun _ => geocoding;
     http_reverse := fun _ _ => geocoding;
     http_current := fun _ _ _ => current_conditions;
     http_forecast := fun _ _ _ => forecast;
     forecast_rejects_first := fun _ _ _ => false |}.

Definition world_paris : World :=
  world_of (Ok (ok_response (GeoArray [paris])))
           (Ok (ok_response paris_current))
           (Ok (ok_response paris_forecast)).

(** The forecast endpoint answers 500. *)
Definition world_forecast_500 : World :=
  world_of (Ok (ok_response (GeoArray [paris])))
           (Ok (ok_response paris_current))
           (Ok (error_response 500)).

(** The forecast endpoint answers 200 with a failure in the body. *)
Definition world_forecast_cod : World :=
  world_of (Ok (ok_response (GeoArray [paris])))
           (Ok (ok_response paris_current))
           (Ok (ok_response failed_forecast)).

(** Current conditions arrive without a [weather] element. *)
Definition world_bare : World :=
  world_of (Ok (ok_response (GeoArray [paris])))
           (Ok (ok_response paris_current_bare))
           (Ok (ok_response paris_forecast)).

(** Nothing can be reached. *)
Definition world_offline : World :=
  world_of (Throw failed_to_fetch) (Throw failed_to_fetch) (Throw failed_to_fetch).

(** Weather is served, the geocoding endpoints are down. *)
Definition world_no_geocoding : World :=
  world_of (Throw failed_to_fetch)
           (Ok (ok_response paris_current))
           (Ok (ok_response paris_forecast)).

(** Everything is served, but the permission prompt of the browser is left
    unanswered. *)
Definition world_prompt_open : World :=
  {| env_api_key := None;
     has_geolocation := true;
     position := PositionPending;
     http_geocode := fun _ => Ok (ok_response (GeoArray [paris]));
     http_reverse := fun _ _ => Ok (ok_response (GeoArray [paris]));
     http_current := fun _ _ _ => Ok (ok_response paris_current);
     http_forecast := fun _ _ _ => Ok (ok_response paris_forecast);
     forecast_rejects_first := fun _ _ _ => false |}.

Definition state_searching (query : string) : HookState :=
  {| s_units := metric; s_searchQuery := query; s_searchMode := city_mode;
     s_backgroundKind := cloudy; s_fetchState := idle; s_error := None;
     s_weather := None |}.

(** The state after a successful search for Paris in [world_paris]. *)
Definition state_paris : HookState :=
  Eval vm_compute in run (state_searching "Paris") (searchByCity world_paris (state_searching "Paris")).

(** The in-body forecast failure of [world_forecast_cod], with current
    conditions that carry no [weather] element. *)
Definition world_bare_forecast_cod : World :=
  world_of (Ok (ok_response (GeoArray [paris])))
           (Ok (ok_response paris_current_bare))
           (Ok (ok_response failed_forecast)).

(** The entry that [fetchWeatherFree] makes up from the current conditions
    of a snapshot. *)
Definition promoted (c : OneCallCurrent) : OneCallDaily :=
  {| d_dt := oc_dt c; d_min := oc_temp c; d_max := oc_temp c; d_day := oc_temp c;
     d_weather := oc_weather c |}.

(** One sample at midnight UTC on each of [n] consecutive days from the
    epoch. *)
Definition daily_samples (n : nat) : list ForecastItem :=
  map (fun i => sample (Z.of_nat i * 86400) 10 9 11 clear_sky) (seq 0 n).

(** ** Vocabulary of the properties *)

(** A computation that only talks to the network: it calls no state setter
    and does not ask for the position. *)
Definition network_only {A} (m : Async A) : Prop :=
  forallb is_network_call (trace m) = true.

(** The state in which the [catch] of an intent leaves [fetchState]: the
    default-city fallback of the mount effect settles on idle, everything
    else on error. *)
Definition caught_state (w : World) (i : Intent) : FetchState :=
  match i, position w with
  | Mount, PositionError => idle
  | _, _ => error
  end.

(** The message that the [catch] around the fetch of an intent hands to
    [setError] for the thrown value [e]. *)
Definition caught_message (w : World) (i : Intent) (e : Exn) : string :=
  match i with
  | ChangeUnits _ => "Unable to refresh weather for the new unit."
  | Mount =>
      match position w with
      | PositionOk _ _ =>
          str_or (Some (exn_message e)) "Unable to get weather for your location."
            ++ " Please search for a city instead."
      | PositionError | PositionPending =>
          "Unable to load default city: " ++ str_or (Some (exn_message e)) "Unknown error"
      end
  | SearchByCity => str_or (Some (exn_message e)) "Unable to fetch weather for that city."
  | RefreshWithGeo => "Unable to refresh weather for your location."
  end.

(** [setSearchQuery], the one plain setter the hook exposes. *)
Definition setSearchQuery (s : HookState) (q : string) : HookState :=
  {| s_units := s_units s; s_searchQuery := q; s_searchMode := s_searchMode s;
     s_backgroundKind := s_backgroundKind s; s_fetchState := s_fetchState s;
     s_error := s_error s; s_weather := s_weather s |}.

(** The states of the hook: the initial one, and those that typing a query
    or performing an intent, in any world, leads to. *)
Inductive reachable : HookState -> Prop :=
| reachable_initial : reachable initial_state
| reachable_query (s : HookState) (q : string) :
    reachable s -> reachable (setSearchQuery s q)
| reachable_perform (w : World) (s : HookState) (i : Intent) :
    reachable s -> reachable (run s (perform w s i)).

(** ** What the [App] component derives from the hook *)

(** The value of [currentSummary]. *)
Record Summary := {
  sm_main : WeatherMain;
  sm_description : string;
  sm_id : number
}.

(** The body of the [useMemo] of [currentSummary]; it runs while [App]
    renders, and reading [head.main] throws when the array is empty. *)
Definition currentSummary (weather : option ResolvedWeather) : Result (option Summary) :=
  match weather with
  | None => Ok None
  | Some weather =>
      match oc_weather (current weather) with
      | [] => Throw (TypeError_undefined "main")
      | head :: _ =>
          Ok (Some {| sm_main := w_main head;
                      sm_description := w_description head;
                      sm_id := w_id head |})
      end
  end.

(** [Array.prototype.slice(start, stop)] for indices within 0 and up. *)
Definition slice {A} (start stop : nat) (l : list A) : list A :=
  firstn (stop - start) (skipn start l).

(** [weather ? weather.daily.slice(1, 6) : []]. *)
Definition forecastDays (weather : option ResolvedWeather) : list OneCallDaily :=
  match weather with
  | Some weather => slice 1 6 (daily weather)
  | None => []
  end.

(** [fetchState === 'loading']. *)
Definition isLoading (s : HookState) : bool :=
  match s_fetchState s with loading => true | _ => false end.

(** The unit system with which an intent fetches. *)
Definition fetch_units (s : HookState) (i : Intent) : Units :=
  match i with
  | ChangeUnits next => next
  | _ => s_units s
  end.

(** [s] begins with [p]. *)
Fixpoint starts_with (p s : string) : bool :=
  match p, s with
  | EmptyString, _ => true
  | String a p', String b s' => Ascii.eqb a b && starts_with p' s'
  | String _ _, EmptyString => false
  end.

(** What the cells of the hook say about each other: success comes with a
    snapshot, a snapshot has a first weather element of which the
    background kind is the class, and without a snapshot the background is
    the initial one. *)
Definition coherent (s : HookState) : Prop :=
  (s_fetchState s = success -> s_weather s <> None) /\
  (forall r, s_weather s = Some r ->
     exists head rest,
       oc_weather (current r) = head :: rest /\
       s_backgroundKind s = classifyBackground (w_main head) (w_id head)) /\
  (s_weather s = None -> s_backgroundKind s = cloudy).

(** * Properties *)

(** ** The classifier *)

Ltac zbool :=
  repeat match goal with
  | |- context [?a >=? ?b] => destruct (Z.geb_spec a b); try lia
  | |- context [?a <? ?b] => destruct (Z.ltb_spec a b); try lia
  | |- context [?a <=? ?b] => destruct (Z.leb_spec a b); try lia
  | |- context [?a =? ?b] => destruct (Z.eqb_spec a b); try lia
  end; cbn [andb orb].

Lemma classify_textual (main : WeatherMain) (code : number) :
  no_code_rule code ->
  classifyBackground main code =
    if (main =? "Drizzle")%string || (main =? "Rain")%string then rain
    else if (main =? "Snow")%string then snow
    else if (main =? "Thunderstorm")%string then storm
    else cloudy.
Proof.
  intros (H2 & H5 & H8). unfold classifyBackground, includes.
  zbool;
    rewrite !orb_false_r, (String.eqb_sym "Drizzle"), (String.eqb_sym "Rain"),
      (String.eqb_sym "Snow"), (String.eqb_sym "Thunderstorm");
    reflexivity.
Qed.

(** C2: [classifyBackground] is a function into the five background kinds
    that follows the stated precedence: a code in [200,300) is a storm
    whatever the text; [600,700) snow; [500,600) rain; 800, 801 and 802
    sunny; 803 and 804 cloudy; when no numeric rule applies, "Drizzle" and
    "Rain" give rain, "Snow" snow, "Thunderstorm" storm, and everything else
    cloudy. *)
Theorem classifyBackground_precedence (main : WeatherMain) (code : number) :
  (200 <= code < 300 -> classifyBackground main code = storm) /\
  (600 <= code < 700 -> classifyBackground main code = snow) /\
  (500 <= code < 600 -> classifyBackground main code = rain) /\
  (code = 800 \/ code = 801 \/ code = 802 -> classifyBackground main code = sunny) /\
  (code = 803 \/ code = 804 -> classifyBackground main code = cloudy) /\
  (no_code_rule code ->
     (main = "Drizzle" \/ main = "Rain" -> classifyBackground main code = rain) /\
     (main = "Snow" -> classifyBackground main code = snow) /\
     (main = "Thunderstorm" -> classifyBackground main code = storm) /\
     (main <> "Drizzle" -> main <> "Rain" -> main <> "Snow" ->
      main <> "Thunderstorm" -> classifyBackground main code = cloudy)).
Proof.
  repeat split; intros.
  1-5: unfold classifyBackground; zbool; reflexivity.
  all: rewrite classify_textual by assumption.
  - destruct H0; subst; reflexivity.
  - subst; reflexivity.
  - subst; reflexivity.
  - apply String.eqb_neq in H0, H1, H2, H3. rewrite H0, H1, H2, H3. reflexivity.
Qed.

Lemma classifyBackground_precedence_witness :
  classifyBackground "Rain" 211 = storm /\
  classifyBackground "Mist" 741 = cloudy /\
  classifyBackground "Drizzle" 300 = rain.
Proof.
  split; [| split].
  - apply (proj1 (classifyBackground_precedence "Rain" 211)). lia.
  - apply (proj2 (proj2 (proj2 (proj2 (proj2
      (classifyBackground_precedence "Mist" 741)))))).
    + unfold no_code_rule. lia.
    + discriminate.
    + discriminate.
    + discriminate.
    + discriminate.
  - apply (proj2 (proj2 (proj2 (proj2 (proj2
      (classifyBackground_precedence "Drizzle" 300)))))).
    + unfold no_code_rule. lia.
    + left. reflexivity.
Defined.

(** ** Day keys and the map *)

#[local] Arguments DayKey_eqb : simpl never.
#[local] Arguments item_key : simpl never.
#[local] Arguments dayKey : simpl never.

Lemma number_eqb_spec (a b : option Z) : reflect (a = b) (number_eqb a b).
Proof.
  destruct a as [x|], b as [y|]; cbn; try (constructor; congruence).
  destruct (Z.eqb_spec x y); constructor; congruence.
Qed.

Lemma DayKey_eqb_spec (a b : DayKey) : reflect (a = b) (DayKey_eqb a b).
Proof.
  destruct a as [[y1 m1] d1], b as [[y2 m2] d2]. unfold DayKey_eqb.
  destruct (number_eqb_spec y1 y2), (number_eqb_spec m1 m2), (number_eqb_spec d1 d2);
    cbn; constructor; congruence.
Qed.

Lemma DayKey_eqb_refl (k : DayKey) : DayKey_eqb k k = true.
Proof. destruct (DayKey_eqb_spec k k); congruence. Qed.

Lemma DayKey_eqb_neq (a b : DayKey) : a <> b -> DayKey_eqb a b = false.
Proof. destruct (DayKey_eqb_spec a b); congruence. Qed.

Section AssocList.
Variable f : DayKey -> DayAcc.

Lemma map_get_absent (ks : list DayKey) (k : DayKey) :
  ~ In k ks -> map_get (map (fun k => (k, f k)) ks) k = None.
Proof.
  induction ks as [|k' ks IH]; cbn; intros Hn; [reflexivity|].
  rewrite DayKey_eqb_neq by intuition. apply IH. intuition.
Qed.

Lemma map_get_present (ks : list DayKey) (k : DayKey) :
  In k ks -> map_get (map (fun k => (k, f k)) ks) k = Some (f k).
Proof.
  induction ks as [|k' ks IH]; cbn; intros Hin; [contradiction|].
  destruct (DayKey_eqb_spec k' k) as [->|Hne]; [reflexivity|].
  apply IH. destruct Hin; congruence.
Qed.

Lemma map_set_absent (ks : list DayKey) (k : DayKey) (v : DayAcc) :
  ~ In k ks -> map_set (map (fun k => (k, f k)) ks) k v = (map (fun k => (k, f k)) ks ++ [(k, v)])%list.
Proof.
  induction ks as [|k' ks IH]; cbn; intros Hn; [reflexivity|].
  rewrite DayKey_eqb_neq by intuition. f_equal. apply IH. intuition.
Qed.

Lemma map_set_present (ks : list DayKey) (k : DayKey) (v : DayAcc) :
  NoDup ks -> In k ks ->
  map_set (map (fun k => (k, f k)) ks) k v =
  map (fun k' => (k', if DayKey_eqb k' k then v else f k')) ks.
Proof.
  induction 1 as [|k' ks Hk' Hnd IH]; cbn; intros Hin; [contradiction|].
  destruct (DayKey_eqb_spec k' k) as [->|Hne].
  - f_equal. apply map_ext_in. intros k1 Hk1.
    rewrite DayKey_eqb_neq by congruence. reflexivity.
  - f_equal. apply IH. destruct Hin; congruence.
Qed.
End AssocList.

(** ** The days in first-seen order *)

Lemma days_first_seen_In (items : list ForecastItem) (k : DayKey) :
  In k (days_first_seen items) <-> exists it, In it items /\ item_key it = k.
Proof.
  induction items as [|a items IH]; cbn.
  - split; [contradiction | intros (it & [] & _)].
  - rewrite filter_In, IH. split.
    + intros [<- | ((it & Hin & <-) & _)]; eauto.
    + intros (it & [<- | Hin] & <-); [now left|].
      destruct (DayKey_eqb_spec (item_key a) (item_key it)) as [E|N].
      * now left.
      * right. split; [eauto | reflexivity].
Qed.

Lemma days_first_seen_NoDup (items : list ForecastItem) : NoDup (days_first_seen items).
Proof.
  induction items as [|a items IH]; cbn; constructor.
  - rewrite filter_In. intros (_ & H). cbn beta in H.
    now rewrite DayKey_eqb_refl in H.
  - now apply NoDup_filter.
Qed.

Lemma days_first_seen_snoc (items : list ForecastItem) (x : ForecastItem) :
  days_first_seen (items ++ [x]) =
  if existsb (DayKey_eqb (item_key x)) (days_first_seen items)
  then days_first_seen items
  else (days_first_seen items ++ [item_key x])%list.
Proof.
  induction items as [|a items IH]; cbn; [reflexivity|].
  rewrite IH. clear IH.
  set (ks := days_first_seen items).
  destruct (DayKey_eqb_spec (item_key x) (item_key a)) as [E|N]; cbn.
  - destruct (existsb _ ks); [reflexivity|].
    rewrite filter_app. cbn. rewrite <- E, DayKey_eqb_refl. cbn.
    now rewrite app_nil_r.
  - assert (Hex : existsb (DayKey_eqb (item_key x))
                    (filter (fun k => negb (DayKey_eqb (item_key a) k)) ks)
                  = existsb (DayKey_eqb (item_key x)) ks).
    { induction ks as [|k ks IHks]; cbn; [reflexivity|].
      destruct (DayKey_eqb_spec (item_key a) k) as [<-|Nk]; cbn.
      - rewrite (DayKey_eqb_neq N). exact IHks.
      - now rewrite IHks. }
    rewrite Hex. destruct (existsb _ ks); [reflexivity|].
    rewrite filter_app. cbn.
    rewrite (DayKey_eqb_neq (fun H => N (eq_sym H))). reflexivity.
Qed.

Lemma existsb_DayKey (k : DayKey) (ks : list DayKey) :
  existsb (DayKey_eqb k) ks = true <-> In k ks.
Proof.
  rewrite existsb_exists. split.
  - intros (k' & Hin & E). destruct (DayKey_eqb_spec k k'); congruence.
  - intros Hin. exists k. split; [assumption | apply DayKey_eqb_refl].
Qed.

Lemma day_samples_snoc (k : DayKey) (items : list ForecastItem) (x : ForecastItem) :
  day_samples k (items ++ [x]) =
  (day_samples k items ++ if DayKey_eqb (item_key x) k then [x] else [])%list.
Proof. unfold day_samples. rewrite filter_app. reflexivity. Qed.

Lemma day_samples_nonempty (k : DayKey) (items : list ForecastItem) :
  In k (days_first_seen items) -> day_samples k items <> [].
Proof.
  rewrite days_first_seen_In. intros (it & Hin & E) Hnil.
  assert (H : In it (day_samples k items)).
  { apply filter_In. split; [assumption|]. rewrite E. apply DayKey_eqb_refl. }
  rewrite Hnil in H. exact H.
Qed.

Lemma day_samples_absent (k : DayKey) (items : list ForecastItem) :
  ~ In k (days_first_seen items) -> day_samples k items = [].
Proof.
  intros Hn. unfold day_samples.
  induction items as [|a items IH]; cbn; [reflexivity|].
  destruct (DayKey_eqb_spec (item_key a) k) as [E|N].
  - exfalso. apply Hn. cbn. now left.
  - apply IH. intros Hin. apply Hn. cbn. right. apply filter_In.
    split; [assumption|]. now rewrite DayKey_eqb_neq.
Qed.

(** ** The loop computes the accumulators day by day *)

Lemma acc_of_snoc (g : list ForecastItem) (x : ForecastItem) :
  g <> [] -> acc_of (g ++ [x]) = widen (acc_of g) x.
Proof.
  destruct g as [|first rest]; [congruence|]. intros _.
  unfold acc_of. cbn. now rewrite fold_left_app.
Qed.

Lemma aggregate_item_set (m : DailyMap) (x : ForecastItem) :
  aggregate_item m x =
  map_set m (item_key x)
    match map_get m (item_key x) with
    | None => seed x
    | Some existing => widen existing x
    end.
Proof.
  unfold aggregate_item, item_key. destruct (map_get m _); reflexivity.
Qed.

Lemma aggregate_item_dailyMap_of (items : list ForecastItem) (x : ForecastItem) :
  aggregate_item (dailyMap_of items) x = dailyMap_of (items ++ [x]).
Proof.
  rewrite aggregate_item_set. unfold dailyMap_of.
  rewrite days_first_seen_snoc.
  destruct (existsb _ _) eqn:Hex.
  - apply existsb_DayKey in Hex.
    rewrite (map_get_present (fun k => acc_of (day_samples k items)) _ _ Hex).
    rewrite map_set_present by (auto using days_first_seen_NoDup).
    apply map_ext_in. intros k Hk. f_equal.
    rewrite day_samples_snoc.
    destruct (DayKey_eqb_spec k (item_key x)) as [->|N].
    + rewrite DayKey_eqb_refl.
      now rewrite acc_of_snoc by (now apply day_samples_nonempty).
    + rewrite (DayKey_eqb_neq (fun H => N (eq_sym H))). now rewrite app_nil_r.
  - assert (Hn : ~ In (item_key x) (days_first_seen items)).
    { intros Hin. apply existsb_DayKey in Hin. congruence. }
    rewrite (map_get_absent (fun k => acc_of (day_samples k items)) _ _ Hn).
    rewrite map_set_absent by assumption.
    rewrite map_app. cbn. f_equal.
    + apply map_ext_in. intros k Hk. f_equal.
      rewrite day_samples_snoc.
      rewrite DayKey_eqb_neq by (intros E; apply Hn; now rewrite E).
      now rewrite app_nil_r.
    + rewrite day_samples_snoc, DayKey_eqb_refl.
      now rewrite day_samples_absent by assumption.
Qed.

Lemma build_dailyMap_eq (items : list ForecastItem) :
  build_dailyMap items = dailyMap_of items.
Proof.
  induction items as [|x items IH] using rev_ind; [reflexivity|].
  unfold build_dailyMap in *. rewrite fold_left_app. cbn.
  rewrite IH. apply aggregate_item_dailyMap_of.
Qed.

(** ** What an accumulator holds *)

Section Accumulator.
Variable a : DayAcc.

Lemma widen_all_dt (rest : list ForecastItem) :
  a_dt (fold_left widen rest a) = a_dt a.
Proof.
  induction rest as [|x r IH] using rev_ind; [reflexivity|].
  rewrite fold_left_app. exact IH.
Qed.

Lemma widen_all_min_le (rest : list ForecastItem) :
  a_min (fold_left widen rest a) <= a_min a /\
  Forall (fun it => a_min (fold_left widen rest a) <= f_temp_min it) rest.
Proof.
  induction rest as [|x r [IH1 IH2]] using rev_ind; [split; [cbn; lia | constructor]|].
  rewrite fold_left_app. cbn. split; [lia|].
  apply Forall_app. split.
  - eapply Forall_impl; [|exact IH2]. cbn. intros; lia.
  - repeat constructor. lia.
Qed.

Lemma widen_all_min_attained (rest : list ForecastItem) :
  a_min (fold_left widen rest a) = a_min a \/
  Exists (fun it => a_min (fold_left widen rest a) = f_temp_min it) rest.
Proof.
  induction rest as [|x r IH] using rev_ind; [now left|].
  rewrite fold_left_app. cbn. rewrite Exists_app.
  destruct (Z.min_spec (a_min (fold_left widen r a)) (f_temp_min x))
    as [[_ ->] | [_ ->]].
  - destruct IH as [IH|IH]; [now left | right; now left].
  - right. right. now constructor.
Qed.

Lemma widen_all_max_ge (rest : list ForecastItem) :
  a_max a <= a_max (fold_left widen rest a) /\
  Forall (fun it => f_temp_max it <= a_max (fold_left widen rest a)) rest.
Proof.
  induction rest as [|x r [IH1 IH2]] using rev_ind; [split; [cbn; lia | constructor]|].
  rewrite fold_left_app. cbn. split; [lia|].
  apply Forall_app. split.
  - eapply Forall_impl; [|exact IH2]. cbn. intros; lia.
  - repeat constructor. lia.
Qed.

Lemma widen_all_max_attained (rest : list ForecastItem) :
  a_max (fold_left widen rest a) = a_max a \/
  Exists (fun it => a_max (fold_left widen rest a) = f_temp_max it) rest.
Proof.
  induction rest as [|x r IH] using rev_ind; [now left|].
  rewrite fold_left_app. cbn. rewrite Exists_app.
  destruct (Z.max_spec (a_max (fold_left widen r a)) (f_temp_max x))
    as [[_ ->] | [_ ->]].
  - right. right. now constructor.
  - destruct IH as [IH|IH]; [now left | right; now left].
Qed.
End Accumulator.

Lemma widen_all_latest (first : ForecastItem) (rest : list ForecastItem) :
  a_day (fold_left widen rest (seed first)) = f_temp (last rest first) /\
  a_weather (fold_left widen rest (seed first)) = f_weather (last rest first).
Proof.
  induction rest as [|x r _] using rev_ind; [split; reflexivity|].
  rewrite fold_left_app, last_last. split; reflexivity.
Qed.

Lemma acc_of_summarises (first : ForecastItem) (rest : list ForecastItem) (k : DayKey) :
  summarises (first :: rest) (to_daily (k, acc_of (first :: rest))).
Proof.
  exists first, rest. unfold to_daily, acc_of. cbn.
  destruct (widen_all_min_le (seed first) rest) as [Hmin1 Hmin2].
  destruct (widen_all_max_ge (seed first) rest) as [Hmax1 Hmax2].
  destruct (widen_all_latest first rest) as [Hday Hw].
  repeat split.
  - apply widen_all_dt.
  - constructor; assumption.
  - destruct (widen_all_min_attained (seed first) rest) as [E|E];
      [left; exact E | right; exact E].
  - constructor; assumption.
  - destruct (widen_all_max_attained (seed first) rest) as [E|E];
      [left; exact E | right; exact E].
  - exact Hday.
  - exact Hw.
Qed.

Lemma Forall2_map_In {A B} (P : A -> B -> Prop) (g : A -> B) (l : list A) :
  (forall x, In x l -> P x (g x)) -> Forall2 P l (map g l).
Proof.
  induction l as [|x l IH]; cbn; intros H; constructor.
  - apply H. now left.
  - apply IH. intros y Hy. apply H. now right.
Qed.

Lemma In_firstn {A} (n : nat) (l : list A) (x : A) : In x (firstn n l) -> In x l.
Proof.
  revert l. induction n as [|n IH]; intros [|y l]; cbn; try contradiction.
  intros [->|H]; [now left | right; now apply IH].
Qed.

(** ** The key of a sample is its UTC day *)

#[local] Arguments InLeapYear : simpl never.
#[local] Arguments DayFromYear : simpl never.
#[local] Arguments DayOfMonthStart : simpl never.

(** Linear arithmetic with quotients and remainders by constants. *)
Ltac div_lia := Z.to_euclidean_division_equations; lia.

Lemma InLeapYear_spec (y : Z) :
  InLeapYear y = true <-> (y mod 4 = 0 /\ (y mod 100 <> 0 \/ y mod 400 = 0)).
Proof.
  unfold InLeapYear.
  rewrite andb_true_iff, orb_true_iff, negb_true_iff, !Z.eqb_eq, Z.eqb_neq. tauto.
Qed.

Lemma DayFromYear_succ (y : Z) :
  DayFromYear (y + 1) = DayFromYear y + DayOfMonthStart (InLeapYear y) 12.
Proof.
  pose proof (InLeapYear_spec y) as L.
  unfold DayFromYear. cbv beta iota zeta delta [DayOfMonthStart].
  destruct (InLeapYear y);
    [assert (Hl : y mod 4 = 0 /\ (y mod 100 <> 0 \/ y mod 400 = 0)) by (now apply L)
    |assert (Hl : ~ (y mod 4 = 0 /\ (y mod 100 <> 0 \/ y mod 400 = 0)))
       by (intros H; apply L in H; discriminate)];
    clear L; div_lia.
Qed.

(** The year of the era and the day of that year, in the years that begin
    in March. *)
Lemma year_of_era (doe : Z) :
  0 <= doe < 146097 ->
  let yoe := (doe - doe / 1460 + doe / 36524 - doe / 146096) / 365 in
  let doy := doe - (365 * yoe + yoe / 4 - yoe / 100) in
  0 <= yoe <= 399 /\ 0 <= doy <= 365 /\
  (doy = 365 -> (yoe + 1) mod 4 = 0 /\ ((yoe + 1) mod 100 <> 0 \/ yoe = 399)).
Proof. intros H. cbv zeta. div_lia. Qed.

Lemma civil_from_days_correct (day : Z) :
  let '(y, m, d) := civil_from_days day in is_utc_date day y m d.
Proof.
  unfold civil_from_days. cbv zeta.
  set (z := day + 719468).
  set (era := z / 146097).
  set (doe := z - era * 146097).
  assert (Hdoe : 0 <= doe < 146097) by (subst doe era; div_lia).
  pose proof (@year_of_era doe Hdoe) as Hy. cbv zeta in Hy.
  set (yoe := (doe - doe / 1460 + doe / 36524 - doe / 146096) / 365) in *.
  set (doy := doe - (365 * yoe + yoe / 4 - yoe / 100)) in *.
  destruct Hy as (Hyoe & Hdoy & Hlast).
  assert (Edoy : doy = doe - (365 * yoe + yoe / 4 - yoe / 100)) by reflexivity.
  set (mp := (5 * doy + 2) / 153).
  assert (Hmp : 0 <= mp <= 11) by (subst mp; div_lia).
  assert (Hday : day = era * 146097 + doe - 719468) by (subst doe z; lia).
  set (d := doy - (153 * mp + 2) / 5 + 1).
  assert (Hd : d = doy - (153 * mp + 2) / 5 + 1 /\
               153 * mp <= 5 * doy + 2 < 153 * mp + 153)
    by (subst d mp; div_lia).
  clearbody d mp doy yoe era doe. clear z.
  unfold is_utc_date. rewrite DayFromYear_succ.
  assert (Hcases : mp = 0 \/ mp = 1 \/ mp = 2 \/ mp = 3 \/ mp = 4 \/ mp = 5 \/ mp = 6 \/
                   mp = 7 \/ mp = 8 \/ mp = 9 \/ mp = 10 \/ mp = 11) by lia.
  repeat (destruct Hcases as [Hc|Hcases]);
    try rename Hcases into Hc;
    subst mp; cbn;
    match goal with |- context [InLeapYear ?y] =>
      pose proof (InLeapYear_spec y) as L; destruct (InLeapYear y)
    end;
    cbv beta iota zeta delta [DayOfMonthStart];
    assert (L' : true = true <-> True) by tauto;
    unfold DayFromYear; div_lia.
Qed.

Lemma is_utc_date_day (day day' y m d : Z) :
  is_utc_date day y m d -> is_utc_date day' y m d -> day = day'.
Proof. intros (_ & _ & _ & _ & ->) (_ & _ & _ & _ & ->). reflexivity. Qed.

Lemma civil_from_days_inj (a b : Z) :
  civil_from_days a = civil_from_days b -> a = b.
Proof.
  intros E.
  pose proof (civil_from_days_correct a) as Ha.
  pose proof (civil_from_days_correct b) as Hb.
  rewrite E in Ha. destruct (civil_from_days b) as [[y m] d].
  exact (is_utc_date_day Ha Hb).
Qed.

Lemma Date_valid_range (dt : number) :
  Date_valid dt = (-8640000000000 <=? dt) && (dt <=? 8640000000000).
Proof.
  unfold Date_valid.
  destruct (Z.leb_spec (Z.abs (dt * 1000)) 8640000000000000),
    (Z.leb_spec (-8640000000000) dt), (Z.leb_spec dt 8640000000000); cbn; lia.
Qed.

Lemma utc_day_seconds (dt : number) : utc_day dt = dt / 86400.
Proof. unfold utc_day. div_lia. Qed.

Lemma dayKey_invalid (dt : number) :
  utc_day_of dt = None -> dayKey dt = (None, None, None).
Proof.
  unfold utc_day_of, dayKey, getUTCFullYear, getUTCMonth, getUTCDate.
  rewrite Date_valid_range. destruct (_ && _); [discriminate | reflexivity].
Qed.

Lemma dayKey_valid (dt day : number) :
  utc_day_of dt = Some day ->
  day = dt / 86400 /\
  dayKey dt = (Some (fst (fst (civil_from_days day))),
               Some (snd (fst (civil_from_days day))),
               Some (snd (civil_from_days day))).
Proof.
  unfold utc_day_of, dayKey, getUTCFullYear, getUTCMonth, getUTCDate.
  rewrite Date_valid_range, utc_day_seconds.
  destruct (_ && _); [|discriminate]. intros E. injection E as <-. now split.
Qed.

Lemma dayKey_is_utc_date (dt day : number) :
  utc_day_of dt = Some day ->
  exists y m d, dayKey dt = (Some y, Some m, Some d) /\ is_utc_date day y m d.
Proof.
  intros E. destruct (@dayKey_valid _ _ E) as [_ ->].
  pose proof (civil_from_days_correct day) as H.
  destruct (civil_from_days day) as [[y m] d]. now exists y, m, d.
Qed.

Lemma dayKey_same_day (a b : number) :
  dayKey a = dayKey b <-> utc_day_of a = utc_day_of b.
Proof.
  destruct (utc_day_of a) as [da|] eqn:Ea, (utc_day_of b) as [db|] eqn:Eb.
  - destruct (@dayKey_valid _ _ Ea) as [_ ->], (@dayKey_valid _ _ Eb) as [_ ->]. split.
    + intros E. f_equal. apply civil_from_days_inj.
      destruct (civil_from_days da) as [[y1 m1] d1],
        (civil_from_days db) as [[y2 m2] d2]. cbn in E. congruence.
    + intros E. injection E as ->. reflexivity.
  - destruct (@dayKey_valid _ _ Ea) as [_ ->]. rewrite (dayKey_invalid _ Eb).
    split; discriminate.
  - destruct (@dayKey_valid _ _ Eb) as [_ ->]. rewrite (dayKey_invalid _ Ea).
    split; discriminate.
  - rewrite (dayKey_invalid _ Ea), (dayKey_invalid _ Eb). split; reflexivity.
Qed.

Lemma item_key_same_day (x y : ForecastItem) :
  DayKey_eqb (item_key x) (item_key y) = same_utc_day x y.
Proof.
  unfold same_utc_day, item_key.
  destruct (DayKey_eqb_spec (dayKey (f_dt x)) (dayKey (f_dt y))) as [E|N],
    (number_eqb_spec (utc_day_of (f_dt x)) (utc_day_of (f_dt y))) as [E'|N'];
    try reflexivity.
  - apply dayKey_same_day in E. contradiction.
  - apply dayKey_same_day in E'. contradiction.
Qed.

Lemma filter_map_swap {A B} (p : B -> bool) (g : A -> B) (l : list A) :
  filter p (map g l) = map g (filter (fun x => p (g x)) l).
Proof.
  induction l as [|x l IH]; cbn; [reflexivity|].
  rewrite IH. now destruct (p (g x)).
Qed.

Lemma days_first_seen_leaders (items : list ForecastItem) :
  days_first_seen items = map item_key (day_leaders items).
Proof.
  induction items as [|x items IH]; cbn; [reflexivity|].
  rewrite IH, filter_map_swap. do 2 f_equal.
  apply filter_ext. intros y. now rewrite item_key_same_day.
Qed.

Lemma day_samples_leader (first : ForecastItem) (items : list ForecastItem) :
  day_samples (item_key first) items = samples_of_day first items.
Proof.
  unfold day_samples, samples_of_day. apply filter_ext.
  intros y. apply item_key_same_day.
Qed.

(** ** The aggregation, day by day *)

Lemma aggregate_eq (items : list ForecastItem) :
  aggregate items =
  map (fun k => to_daily (k, acc_of (day_samples k items)))
    (firstn 8 (days_first_seen items)).
Proof.
  unfold aggregate. rewrite build_dailyMap_eq. unfold dailyMap_of.
  now rewrite firstn_map, map_map.
Qed.

Lemma aggregate_by_leaders (items : list ForecastItem) :
  aggregate items =
  map (fun first => to_daily (item_key first, acc_of (samples_of_day first items)))
    (firstn 8 (day_leaders items)).
Proof.
  rewrite aggregate_eq, days_first_seen_leaders, firstn_map, map_map.
  apply map_ext. intros first. now rewrite day_samples_leader.
Qed.

Lemma day_leaders_In (items : list ForecastItem) (x : ForecastItem) :
  In x (day_leaders items) -> In x items.
Proof.
  revert x. induction items as [|a items IH]; cbn; intros x; [easy|].
  intros [->|H]; [now left|]. right. apply IH. now apply filter_In in H.
Qed.

(** The leaders are the samples before which no sample of their day
    arrives. *)
Lemma day_leaders_first (items : list ForecastItem) (x : ForecastItem) :
  In x (day_leaders items) <->
  exists before after,
    items = (before ++ x :: after)%list /\
    Forall (fun y => same_utc_day y x = false) before.
Proof.
  split.
  - induction items as [|a items IH]; cbn; [easy|].
    intros [->|H].
    + exists [], items. split; [reflexivity | constructor].
    + apply filter_In in H. destruct H as [Hin Hday].
      apply negb_true_iff in Hday.
      destruct (IH Hin) as (before & after & -> & Hb).
      exists (a :: before), after. split; [reflexivity | now constructor].
  - intros (before & after & -> & Hb).
    induction Hb as [|a before Ha _ IH]; cbn; [now left|].
    right. apply filter_In. split; [exact IH | now rewrite Ha].
Qed.

Lemma same_utc_day_refl (x : ForecastItem) : same_utc_day x x = true.
Proof. unfold same_utc_day. now destruct (number_eqb_spec (utc_day_of (f_dt x)) (utc_day_of (f_dt x))). Qed.

Lemma samples_of_leader_nonempty (items : list ForecastItem) (first : ForecastItem) :
  In first (day_leaders items) -> samples_of_day first items <> [].
Proof.
  intros Hin Hnil. apply day_leaders_In in Hin.
  assert (H : In first (samples_of_day first items)).
  { apply filter_In. split; [assumption | apply same_utc_day_refl]. }
  rewrite Hnil in H. exact H.
Qed.

Lemma aggregate_summaries (items : list ForecastItem) (n m : nat) :
  Forall2 (fun first d => summarises (samples_of_day first items) d)
    (firstn n (skipn m (firstn 8 (day_leaders items))))
    (firstn n (skipn m (aggregate items))).
Proof.
  rewrite aggregate_by_leaders.
  rewrite skipn_map, firstn_map.
  apply Forall2_map_In. intros x Hx.
  apply In_firstn in Hx.
  assert (Hin : In x (day_leaders items)).
  { apply (In_firstn 8). revert Hx. generalize (firstn 8 (day_leaders items)).
    induction m as [|m IH]; intros l; [easy|].
    destruct l as [|y l]; cbn; [easy|]. intros H. right. now apply IH. }
  apply samples_of_leader_nonempty in Hin.
  destruct (samples_of_day x items) as [|first rest]; [congruence|].
  apply acc_of_summarises.
Qed.

(** C3, as stated, does not hold for every sequence of samples.  The two
    samples below lie on different UTC days, a day apart, but [Date] cannot
    hold either timestamp, both get the key [NaN-NaN-NaN], and the
    aggregation gives one summary for the two, whose minimum and maximum
    range over both days. *)
Lemma aggregate_merges_invalid_dates :
  8640000000001 / 86400 <> 8640000086401 / 86400 /\
  aggregate [sample 8640000000001 10 9 11 clear_sky;
             sample 8640000086401 20 19 21 light_rain]
  = [{| d_dt := 8640000000001; d_min := 9; d_max := 21; d_day := 20;
        d_weather := [light_rain] |}].
Proof. split; [discriminate | reflexivity]. Qed.

(** C3, amended: the aggregation groups the samples by UTC calendar date,
    the samples whose timestamp [Date] cannot hold (more than 8.64e15
    milliseconds from the epoch) forming one group.  The key of a sample is
    the year, month and date of its UTC day, and [NaN-NaN-NaN] for a
    timestamp [Date] cannot hold, so two samples have the same key exactly
    when they fall on the same UTC day or are both out of range.  The groups
    come in first-seen order and the first eight are kept; the summary of a
    group takes its timestamp from the first sample of the group, its
    minimum and maximum are exactly the least of the group's sample minima
    and the greatest of its sample maxima, and its representative
    temperature and condition are those of the last sample of the group. *)
Theorem aggregate_groups_by_day (items : list ForecastItem) :
  (forall dt day,
     utc_day_of dt = Some day ->
     exists y m d, dayKey dt = (Some y, Some m, Some d) /\ is_utc_date day y m d) /\
  (forall dt, utc_day_of dt = None -> dayKey dt = (None, None, None)) /\
  (forall a b, dayKey a = dayKey b <-> utc_day_of a = utc_day_of b) /\
  Forall2 (fun first d => summarises (samples_of_day first items) d)
    (firstn 8 (day_leaders items)) (aggregate items).
Proof.
  split; [apply dayKey_is_utc_date|].
  split; [apply dayKey_invalid|].
  split; [apply dayKey_same_day|].
  pose proof (aggregate_summaries items 8 0) as H. cbn [skipn] in H.
  rewrite firstn_firstn in H. cbn [Nat.min] in H.
  replace (firstn 8 (aggregate items)) with (aggregate items) in H; [exact H|].
  rewrite aggregate_by_leaders, <- firstn_map, firstn_firstn. reflexivity.
Qed.

Lemma aggregate_groups_by_day_witness :
  exists y m d,
    dayKey 1709251199 = (Some y, Some m, Some d) /\ is_utc_date 19782 y m d.
Proof.
  apply (proj1 (aggregate_groups_by_day paris_samples) 1709251199 19782).
  reflexivity.
Defined.

Example dayKey_samples :
  dayKey 0 = (Some 1970, Some 0, Some 1) /\
  dayKey (-1) = (Some 1969, Some 11, Some 31) /\
  dayKey 951782400 = (Some 2000, Some 1, Some 29) /\
  dayKey 1709251199 = (Some 2024, Some 1, Some 29) /\
  dayKey 1709251200 = (Some 2024, Some 2, Some 1) /\
  dayKey 8640000000000 = (Some 275760, Some 8, Some 13) /\
  dayKey 8640000000001 = (None, None, None).
Proof. repeat split. Qed.

Example aggregate_nothing : aggregate [] = [].
Proof. reflexivity. Qed.

Example aggregate_paris_samples :
  map (fun d => (d_dt d, d_min d, d_max d, d_day d)) (aggregate paris_samples) =
  [(1699984800, 14, 16, 15); (1700006400, 9, 19, 16); (1700092800, 7, 11, 9)].
Proof. reflexivity. Qed.

Example aggregate_keeps_eight_days :
  map d_dt (aggregate (daily_samples 10)) =
  [0; 86400; 172800; 259200; 345600; 432000; 518400; 604800].
Proof. reflexivity. Qed.

Example search_paris :
  s_fetchState state_paris = success /\ s_backgroundKind state_paris = sunny /\
  s_searchMode state_paris = city_mode /\
  option_map (fun r => (locationName r, oc_temp (current r), List.length (daily r)))
    (s_weather state_paris) = Some ("Paris, Ile-de-France, FR", 18, 3%nat).
Proof. repeat split. Qed.

(** ** Requests and state updates *)

#[local] Arguments api_key_invalid : simpl never.
#[local] Arguments str_or : simpl never.
#[local] Arguments string_of_number : simpl never.
#[local] Arguments String.append : simpl never.
#[local] Arguments trim : simpl never.
#[local] Arguments build_oneCall : simpl never.
#[local] Arguments classifyBackground : simpl never.
#[local] Arguments buildLocationLabel : simpl never.
#[local] Arguments fetchOneCall : simpl never.
#[local] Arguments geocodeCity : simpl never.
#[local] Arguments reverseGeocode : simpl never.

Section NetworkOnly.
Context {A B : Type}.

Lemma network_only_ret (a : A) : network_only (ret a).
Proof. reflexivity. Qed.

Lemma network_only_throw (e : Exn) : network_only (@throw A e).
Proof. reflexivity. Qed.

Lemma network_only_await (p : Result A) : network_only (await p).
Proof. reflexivity. Qed.

Lemma network_only_fetch (r : Request) (o : Result (Response A)) :
  network_only (fetch r o).
Proof. unfold fetch. destruct o; reflexivity. Qed.

Lemma network_only_bind (m : Async A) (k : A -> Async B) :
  network_only m -> (forall a, network_only (k a)) -> network_only (bind m k).
Proof.
  unfold network_only, trace. destruct m as [l [a|e]]; cbn; intros Hm Hk; [|exact Hm].
  specialize (Hk a). destruct (k a) as [l' r]. cbn in *.
  rewrite forallb_app, Hm, Hk. reflexivity.
Qed.

Lemma network_only_try_catch (m : Async A) (h : Exn -> Async A) :
  network_only m -> (forall e, network_only (h e)) -> network_only (try_catch m h).
Proof.
  unfold network_only, trace. destruct m as [l [a|e]]; cbn; intros Hm Hh; [exact Hm|].
  specialize (Hh e). destruct (h e) as [l' r]. cbn in *.
  rewrite forallb_app, Hm, Hh. reflexivity.
Qed.

Lemma network_only_promise_all (second_first : bool) (a : Async A) (b : Async B) :
  network_only a -> network_only b -> network_only (promise_all second_first a b).
Proof.
  unfold network_only, trace. destruct a as [la ra], b as [lb rb]. cbn.
  intros Ha Hb. rewrite forallb_app, Ha, Hb. reflexivity.
Qed.
End NetworkOnly.

Ltac network_only :=
  repeat first
    [ apply network_only_ret | apply network_only_throw | apply network_only_await
    | apply network_only_fetch
    | apply network_only_promise_all
    | apply network_only_bind; [|intro]
    | apply network_only_try_catch; [|intro]
    | match goal with
      | |- network_only (if ?b then _ else _) => destruct b
      | |- network_only (match ?x with _ => _ end) => destruct x
      | |- network_only (let (_, _) := ?x in _) => destruct x
      end ].

Lemma fetchOneCall_network_only (w : World) (lat lon : number) (units : Units) :
  network_only (fetchOneCall w lat lon units).
Proof. unfold fetchOneCall, fetchWeatherFree. network_only. Qed.

Lemma geocodeCity_network_only (w : World) (query : string) :
  network_only (geocodeCity w query).
Proof. unfold geocodeCity. network_only. Qed.

Lemma reverseGeocode_network_only (w : World) (lat lon : number) :
  network_only (reverseGeocode w lat lon).
Proof. unfold reverseGeocode. network_only. Qed.

Lemma network_call_In (l : list Event) (ev : Event) :
  forallb is_network_call l = true -> In ev l -> is_network_call ev = true.
Proof. intros H Hin. rewrite forallb_forall in H. now apply H. Qed.

Lemma run_network_calls (l : list Event) (s : HookState) :
  forallb is_network_call l = true -> fold_left apply_event l s = s.
Proof.
  revert s. induction l as [|ev l IH]; cbn; intros s H; [reflexivity|].
  apply andb_prop in H. destruct H as [Hev Hl].
  destruct ev; try discriminate; cbn; now apply IH.
Qed.

(** ** Reverse geocoding never throws *)

Lemma reverseGeocode_returns (w : World) (lat lon : number) :
  exists r, outcome (reverseGeocode w lat lon) = Ok r.
Proof.
  unfold reverseGeocode, outcome, fetch.
  destruct (http_reverse w lat lon) as [resp|e]; cbn; [|eauto].
  destruct (resp_ok resp); cbn; [|eauto].
  destruct (resp_json resp); cbn; eauto.
Qed.

(** ** The intents around their fetch *)

Ltac tidy :=
  cbn [fst snd] in *;
  repeat match goal with
  | H : Ok _ = Throw _ |- _ => discriminate H
  | H : Throw _ = Ok _ |- _ => discriminate H
  | H : Some _ = None |- _ => discriminate H
  | H : None = Some _ |- _ => discriminate H
  | H : Ok _ = Ok _ |- _ => injection H as H
  | H : Throw _ = Throw _ |- _ => injection H as H
  | H : Some _ = Some _ |- _ => injection H as H
  | H : (_, _) = (_, _) |- _ => injection H as ? ?
  | H : ?x = ?y |- _ => is_var x; subst x
  | H : ?x = ?y |- _ => is_var y; subst y
  end.

(** Names the results of the calls an intent makes and records that their
    traces are network calls. *)
Ltac name_call :=
  match goal with
  | |- context [geocodeCity ?w ?q] =>
      let H := fresh "Hgeo" in
      pose proof (geocodeCity_network_only w q) as H;
      destruct (geocodeCity w q) as [? [[?|]|?]] eqn:?;
      unfold network_only, trace in H; cbn [fst] in H
  | |- context [fetchOneCall ?w ?a ?b ?u] =>
      let H := fresh "Hone" in
      pose proof (fetchOneCall_network_only w a b u) as H;
      destruct (fetchOneCall w a b u) as [? [?|?]] eqn:?;
      unfold network_only, trace in H; cbn [fst] in H
  | |- context [reverseGeocode ?w ?a ?b] =>
      let H := fresh "Hrev" in
      let R := fresh "Hret" in
      pose proof (reverseGeocode_network_only w a b) as H;
      destruct (reverseGeocode_returns w a b) as [? R];
      destruct (reverseGeocode w a b) as [? [?|?]] eqn:?;
      unfold network_only, trace, outcome in H, R; cbn [fst snd] in H, R;
      [|discriminate R]
  end.

Ltac name_calls := repeat (name_call; tidy; cbn).

Ltac unfold_intent :=
  unfold perform, handleUnitsChange, mountEffect, loadDefaultCity, searchByCity,
    refreshWithGeo, setBackgroundKind_of_head.

(** Splits on the tests that decide where an intent fetches. *)
Ltac split_site H :=
  repeat match type of H with
  | context [if ?b then _ else _] => destruct b eqn:?; try discriminate H
  | context [match ?x with _ => _ end] => destruct x eqn:?; try discriminate H
  end.

(** Folds the setters of an explicit trace into the state. *)
Ltac fold_events :=
  unfold run, trace; cbn [fst snd];
  repeat first
    [ rewrite fold_left_app
    | rewrite run_network_calls by assumption
    | progress cbn [fold_left apply_event app] ].

Lemma perform_success (w : World) (s : HookState) (i : Intent)
  (la lo : number) (u : Units) (oc : OneCallResponse) (h : WeatherEntry)
  (t : list WeatherEntry) :
  fetch_site w s i = Some (la, lo, u) ->
  outcome (fetchOneCall w la lo u) = Ok oc ->
  oc_weather (o_current oc) = h :: t ->
  s_fetchState (run s (perform w s i)) = success /\
  s_backgroundKind (run s (perform w s i)) = classifyBackground (w_main h) (w_id h) /\
  exists r,
    s_weather (run s (perform w s i)) = Some r /\
    current r = o_current oc /\ daily r = o_daily oc /\
    timezoneOffset r = o_timezone_offset oc /\
    lat r = o_lat oc /\ lon r = o_lon oc.
Proof.
  intros Hsite Hfetch Hhead.
  destruct i; cbn [fetch_site] in Hsite; unfold outcome in *; unfold_intent.
  all: split_site Hsite.
  all: injection Hsite as <- <- <-.
  all: cbn; name_calls.
  all: rewrite ?Hhead; cbn; fold_events; cbn; eauto 10.
Qed.

(** Splits on the tests an intent makes before and after its calls. *)
Ltac split_tests :=
  repeat (match goal with
  | |- context [Units_eqb ?a ?b] => destruct (Units_eqb a b) eqn:?
  | |- context [match s_weather ?s with _ => _ end] => destruct (s_weather s) eqn:?
  | |- context [has_geolocation ?w] => destruct (has_geolocation w) eqn:?
  | |- context [match position ?w with _ => _ end] => destruct (position w) eqn:?
  | |- context [(trim ?q =? "")%string] => destruct (trim q =? "")%string eqn:?
  | |- context [match oc_weather ?c with _ => _ end] => destruct (oc_weather c) eqn:?
  end; cbn).

(** Decides membership of a setter in an explicit trace. *)
Ltac in_trace H :=
  cbn in H; repeat (rewrite in_app_iff in H; cbn in H);
  repeat match goal with
  | H' : _ \/ _ |- _ => destruct H'
  | H' : False |- _ => destruct H'
  | H' : In _ ?l, Hl : forallb is_network_call ?l = true |- _ =>
      apply (network_call_In _ _ Hl) in H'; discriminate H'
  | H' : @eq Event _ _ |- _ => first [discriminate H' | injection H' as H'; try subst]
  end.

Ltac fetched :=
  match goal with
  | H : fetchOneCall _ _ _ _ = _ |- _ => rewrite H; reflexivity
  end.

Lemma perform_headless (w : World) (s : HookState) (i : Intent)
  (la lo : number) (u : Units) (oc : OneCallResponse) :
  fetch_site w s i = Some (la, lo, u) ->
  outcome (fetchOneCall w la lo u) = Ok oc ->
  oc_weather (o_current oc) = [] ->
  s_fetchState (run s (perform w s i)) = caught_state w i /\
  s_error (run s (perform w s i)) = Some (caught_message w i (TypeError_undefined "main")) /\
  s_weather (run s (perform w s i)) = s_weather s /\
  s_backgroundKind (run s (perform w s i)) = s_backgroundKind s /\
  ~ In (SetFetchState success) (trace (perform w s i)).
Proof.
  intros Hsite Hfetch Hhead.
  destruct i; cbn [fetch_site] in Hsite; unfold outcome, caught_state, caught_message in *; unfold_intent.
  all: split_site Hsite.
  all: injection Hsite as <- <- <-.
  all: cbn; name_calls.
  all: rewrite ?Hhead; cbn.
  all: repeat split; [fold_events; cbn; eauto .. | intros Hin; in_trace Hin].
  all: rewrite ?Heqp; reflexivity.
Qed.

Lemma perform_fetch_thrown (w : World) (s : HookState) (i : Intent)
  (la lo : number) (u : Units) (e : Exn) :
  fetch_site w s i = Some (la, lo, u) ->
  outcome (fetchOneCall w la lo u) = Throw e ->
  s_fetchState (run s (perform w s i)) = caught_state w i /\
  s_error (run s (perform w s i)) = Some (caught_message w i e) /\
  s_weather (run s (perform w s i)) = s_weather s /\
  s_backgroundKind (run s (perform w s i)) = s_backgroundKind s /\
  ~ In (SetFetchState success) (trace (perform w s i)).
Proof.
  intros Hsite Hfetch.
  destruct i; cbn [fetch_site] in Hsite; unfold outcome, caught_state, caught_message in *; unfold_intent.
  all: split_site Hsite.
  all: injection Hsite as <- <- <-.
  all: cbn; name_calls.
  all: repeat split; [fold_events; cbn; eauto .. | intros Hin; in_trace Hin].
  all: rewrite ?Heqp; reflexivity.
Qed.

Lemma perform_success_event (w : World) (s : HookState) (i : Intent) :
  In (SetFetchState success) (trace (perform w s i)) ->
  exists la lo u oc r,
    fetch_site w s i = Some (la, lo, u) /\
    outcome (fetchOneCall w la lo u) = Ok oc /\
    oc_weather (o_current oc) <> [] /\
    In (SetWeather r) (trace (perform w s i)) /\
    current r = o_current oc /\ daily r = o_daily oc.
Proof.
  destruct i; unfold outcome; unfold_intent; cbn [fetch_site]; unfold outcome; cbn.
  all: split_tests; name_calls; split_tests.
  all: intros Hin; in_trace Hin.
  all: do 5 eexists; split; [reflexivity|]; split; [fetched|].
  all: split; [congruence|]; split;
    [ cbn; repeat (rewrite in_app_iff; cbn); repeat first [left; reflexivity | right]
    | split; reflexivity ].
Qed.

Lemma perform_SetWeather (w : World) (s : HookState) (i : Intent) (r : ResolvedWeather) :
  In (SetWeather r) (trace (perform w s i)) ->
  exists la lo u oc,
    fetch_site w s i = Some (la, lo, u) /\
    outcome (fetchOneCall w la lo u) = Ok oc /\
    oc_weather (o_current oc) <> [] /\
    current r = o_current oc /\ daily r = o_daily oc.
Proof.
  destruct i; unfold outcome; unfold_intent; cbn [fetch_site]; unfold outcome; cbn.
  all: split_tests; name_calls; split_tests.
  all: intros Hin; in_trace Hin.
  all: do 4 eexists; split; [reflexivity|]; split; [fetched|].
  all: split; [congruence|]; split; reflexivity.
Qed.

Lemma caught_state_not_success (w : World) (i : Intent) : caught_state w i <> success.
Proof. unfold caught_state. destruct i, (position w); discriminate. Qed.

(** ** The fetcher *)

#[local] Arguments aggregate : simpl never.

Lemma Units_eqb_spec (a b : Units) : reflect (a = b) (Units_eqb a b).
Proof. destruct a, b; constructor; congruence. Qed.

Lemma fetchOneCall_ok_inv (w : World) (la lo : number) (u : Units) (oc : OneCallResponse) :
  outcome (fetchOneCall w la lo u) = Ok oc ->
  exists rc rf current forecast,
    api_key_valid w /\
    http_current w la lo u = Ok rc /\ http_forecast w la lo u = Ok rf /\
    resp_ok rc = true /\ resp_ok rf = true /\
    resp_json rc = Ok current /\ resp_json rf = Ok forecast /\
    cod_ok (c_cod current) = true /\
    oc = build_oneCall current forecast.
Proof.
  unfold fetchOneCall, fetchWeatherFree, outcome, api_key_valid, fetch, promise_all.
  destruct (api_key_invalid _); cbn; [discriminate|].
  destruct (http_current w la lo u) as [rc|]; cbn;
    destruct (http_forecast w la lo u) as [rf|]; cbn; try discriminate;
    [|destruct (forecast_rejects_first w la lo u); discriminate].
  destruct (resp_ok rc) eqn:Hrc; cbn; [|destruct (_ =? _); discriminate].
  destruct (resp_ok rf) eqn:Hrf; cbn; [|discriminate].
  destruct (resp_json rc) as [current|] eqn:Hjc; cbn; [|discriminate].
  destruct (resp_json rf) as [forecast|] eqn:Hjf; cbn; [|discriminate].
  destruct (cod_ok (c_cod current)) eqn:Hcod; cbn; [|discriminate].
  intros H. injection H as <-.
  exists rc, rf, current, forecast. repeat split; auto.
Qed.

Lemma fetchOneCall_ok (w : World) (la lo : number) (u : Units)
  (rc : Response CurrentWeatherResponse) (rf : Response ForecastResponse)
  (current : CurrentWeatherResponse) (forecast : ForecastResponse) :
  api_key_valid w ->
  http_current w la lo u = Ok rc -> http_forecast w la lo u = Ok rf ->
  resp_ok rc = true -> resp_ok rf = true ->
  resp_json rc = Ok current -> resp_json rf = Ok forecast ->
  cod_ok (c_cod current) = true ->
  outcome (fetchOneCall w la lo u) = Ok (build_oneCall current forecast).
Proof.
  unfold fetchOneCall, fetchWeatherFree, outcome, api_key_valid, fetch, promise_all.
  intros -> -> -> . cbn. intros -> ->. cbn. intros -> ->. cbn. intros ->. reflexivity.
Qed.

Lemma build_oneCall_current (current : CurrentWeatherResponse) (forecast : ForecastResponse) :
  let oc := build_oneCall current forecast in
  oc_weather (o_current oc) = c_weather current /\
  oc_temp (o_current oc) = c_main_temp current /\
  oc_dt (o_current oc) = c_dt current.
Proof. repeat split. Qed.

Lemma build_oneCall_daily (current : CurrentWeatherResponse) (forecast : ForecastResponse) :
  let oc := build_oneCall current forecast in
  o_daily oc <> [] /\
  (aggregate (forecast_list forecast) <> [] ->
   o_daily oc = aggregate (forecast_list forecast)) /\
  (aggregate (forecast_list forecast) = [] ->
   o_daily oc =
     [{| d_dt := oc_dt (o_current oc);
         d_min := oc_temp (o_current oc);
         d_max := oc_temp (o_current oc);
         d_day := oc_temp (o_current oc);
         d_weather := oc_weather (o_current oc) |}]).
Proof.
  unfold build_oneCall. cbn.
  destruct (aggregate (forecast_list forecast)) as [|d ds]; cbn;
    (split; [|split]); intros; try reflexivity; congruence.
Qed.

Lemma forecast_list_failed (forecast : ForecastResponse) :
  cod_ok (fr_cod forecast) = false -> forecast_list forecast = [].
Proof. unfold forecast_list. now intros ->. Qed.

Lemma run_weather (l : list Event) (s : HookState) (r : ResolvedWeather) :
  s_weather (fold_left apply_event l s) = Some r ->
  s_weather s = Some r \/ In (SetWeather r) l.
Proof.
  revert s. induction l as [|ev l IH]; cbn; intros s H; [now left|].
  apply IH in H. destruct H as [H|H]; [|now right; right].
  destruct ev; cbn in H; auto.
  injection H as <-. right. now left.
Qed.

(** ** Forecast failures *)

(** C1: against the claim, a forecast leg that fails by its HTTP status is
    fatal.  When the key is valid, the current-conditions leg succeeds and
    the forecast request is answered with a status that is not ok,
    [fetchWeatherFree] throws an [Error] whose message is the [message] of
    the forecast body, or "HTTP" and the status: it returns no sample
    sequence, empty or other.  Every intent that fetches there runs its
    [catch]: it never sets the success state, installs no snapshot, keeps
    the snapshot it had, and ends in the error state (idle on the default
    city of the mount effect). *)
Theorem forecast_failure_by_status_is_fatal (w : World) (la lo : number) (u : Units)
  (cur : CurrentWeatherResponse) (rf : Response ForecastResponse) :
  api_key_valid w ->
  current_leg_succeeds w la lo u cur ->
  http_forecast w la lo u = Ok rf ->
  resp_ok rf = false ->
  outcome (fetchWeatherFree w la lo u)
    = Throw (Error (str_or (json_or_empty (resp_json rf) fr_message)
                      ("HTTP " ++ string_of_number (resp_status rf)))) /\
  forall s i,
    fetch_site w s i = Some (la, lo, u) ->
    ~ In (SetFetchState success) (trace (perform w s i)) /\
    (forall r, ~ In (SetWeather r) (trace (perform w s i))) /\
    s_fetchState (run s (perform w s i)) = caught_state w i /\
    s_fetchState (run s (perform w s i)) <> success /\
    s_weather (run s (perform w s i)) = s_weather s.
Proof.
  intros Hkey (rc & Hc & Hcok & Hcj & Hccod) Hf Hfok.
  assert (Hthrow : outcome (fetchWeatherFree w la lo u)
            = Throw (Error (str_or (json_or_empty (resp_json rf) fr_message)
                              ("HTTP " ++ string_of_number (resp_status rf))))).
  { unfold api_key_valid in Hkey.
    unfold fetchWeatherFree, outcome, fetch, promise_all.
    rewrite Hkey, Hc, Hf. cbn. rewrite Hcok, Hfok. reflexivity. }
  split; [exact Hthrow|].
  intros s i Hsite.
  destruct (@perform_fetch_thrown w s i la lo u _ Hsite Hthrow)
    as (Hst & _ & Hw & _ & Hno).
  split; [exact Hno|]. split.
  - intros r Hin.
    destruct (perform_SetWeather w s i r Hin) as (la' & lo' & u' & oc & Hsite' & Hok & _).
    rewrite Hsite in Hsite'. injection Hsite' as <- <- <-.
    unfold fetchOneCall in Hok. rewrite Hthrow in Hok. discriminate.
  - split; [exact Hst|]. split; [|exact Hw].
    rewrite Hst. apply caught_state_not_success.
Qed.

(** In [world_forecast_500] the current conditions of Paris are served and
    the forecast endpoint answers 500: the fetch throws and the search for
    Paris ends in the error state with no snapshot. *)
Lemma forecast_failure_by_status_is_fatal_witness :
  outcome (fetchWeatherFree world_forecast_500 4885 235 metric)
    = Throw (Error "HTTP 500") /\
  s_fetchState (run (state_searching "Paris")
                  (perform world_forecast_500 (state_searching "Paris") SearchByCity))
    = error /\
  s_weather (run (state_searching "Paris")
               (perform world_forecast_500 (state_searching "Paris") SearchByCity))
    = None.
Proof.
  assert (Hkey : api_key_valid world_forecast_500) by reflexivity.
  assert (Hcur : current_leg_succeeds world_forecast_500 4885 235 metric paris_current)
    by (exists (ok_response paris_current); repeat split).
  destruct (@forecast_failure_by_status_is_fatal world_forecast_500 4885 235 metric
              paris_current (error_response 500) Hkey Hcur eq_refl eq_refl)
    as (Hthrow & Hintents).
  split; [exact Hthrow|].
  destruct (Hintents (state_searching "Paris") SearchByCity eq_refl)
    as (_ & _ & Hst & _ & Hw).
  split; [exact Hst | exact Hw].
Defined.

(** A failure in the body of the forecast, by contrast, is soft; but the
    resolution still needs a first [weather] element.  In
    [world_bare_forecast_cod] the forecast fails in its body, the current
    conditions have no [weather] element, and the search ends in the error
    state. *)
Example forecast_failure_in_body_needs_weather :
  current_leg_succeeds world_bare_forecast_cod 4885 235 metric paris_current_bare /\
  forecast_fails_in_body world_bare_forecast_cod 4885 235 metric failed_forecast /\
  fetch_site world_bare_forecast_cod (state_searching "Paris") SearchByCity
    = Some (4885, 235, metric) /\
  s_fetchState (run (state_searching "Paris")
                  (searchByCity world_bare_forecast_cod (state_searching "Paris"))) = error /\
  s_weather (run (state_searching "Paris")
               (searchByCity world_bare_forecast_cod (state_searching "Paris"))) = None.
Proof.
  split; [exists (ok_response paris_current_bare); repeat split|].
  split; [exists (ok_response failed_forecast); repeat split|].
  repeat split.
Qed.

(** X26: a forecast failure in the body is soft.  When both legs are
    answered with a 2xx status and bodies that parse, the current-conditions
    body reports success and the forecast body reports a failure in its
    status code, the fetcher goes on with an empty sample sequence and
    returns, rather than throws, a result whose daily sequence is the single
    entry made from the current conditions; and every intent that fetches
    there reaches the success state with that daily sequence, provided the
    current conditions have a [weather] element. *)
Theorem forecast_failure_in_body_is_soft (w : World) (la lo : number) (u : Units)
  (cur : CurrentWeatherResponse) (forecast : ForecastResponse) :
  api_key_valid w ->
  current_leg_succeeds w la lo u cur ->
  forecast_fails_in_body w la lo u forecast ->
  forecast_list forecast = [] /\
  exists oc,
    outcome (fetchWeatherFree w la lo u) = Ok oc /\
    oc_temp (o_current oc) = c_main_temp cur /\
    oc_dt (o_current oc) = c_dt cur /\
    oc_weather (o_current oc) = c_weather cur /\
    o_daily oc = [promoted (o_current oc)] /\
    forall s i,
      fetch_site w s i = Some (la, lo, u) ->
      c_weather cur <> [] ->
      s_fetchState (run s (perform w s i)) = success /\
      exists r,
        s_weather (run s (perform w s i)) = Some r /\
        current r = o_current oc /\
        daily r = [promoted (current r)].
Proof.
  intros Hkey (rc & Hc & Hcok & Hcj & Hccod) (rf & Hf & Hfok & Hfj & Hfcod).
  pose proof (forecast_list_failed forecast Hfcod) as Hlist.
  split; [exact Hlist|].
  pose proof (@fetchOneCall_ok w la lo u rc rf cur forecast Hkey Hc Hf Hcok Hfok Hcj Hfj Hccod)
    as Hfetch.
  exists (build_oneCall cur forecast).
  destruct (build_oneCall_daily cur forecast) as (_ & _ & Hsyn).
  rewrite Hlist in Hsyn. specialize (Hsyn eq_refl).
  split; [exact Hfetch|].
  do 3 (split; [reflexivity|]). split; [exact Hsyn|].
  intros s i Hsite Hhead.
  destruct (c_weather cur) as [|h t] eqn:Hw; [congruence|].
  destruct (@perform_success w s i la lo u (build_oneCall cur forecast) h t Hsite Hfetch Hw)
    as (Hst & _ & r & Hr & Hrc & Hrd & _).
  split; [exact Hst|]. exists r. repeat split; try assumption.
  rewrite Hrd, Hrc. exact Hsyn.
Qed.

Lemma forecast_failure_in_body_is_soft_witness :
  s_fetchState (run (state_searching "Paris")
                  (perform world_forecast_cod (state_searching "Paris") SearchByCity))
  = success.
Proof.
  assert (Hkey : api_key_valid world_forecast_cod) by reflexivity.
  assert (Hcur : current_leg_succeeds world_forecast_cod 4885 235 metric paris_current)
    by (exists (ok_response paris_current); repeat split).
  assert (Hfc : forecast_fails_in_body world_forecast_cod 4885 235 metric failed_forecast)
    by (exists (ok_response failed_forecast); repeat split).
  destruct (@forecast_failure_in_body_is_soft world_forecast_cod 4885 235 metric
              paris_current failed_forecast Hkey Hcur Hfc)
    as (_ & oc & _ & _ & _ & _ & _ & H).
  apply (H (state_searching "Paris") SearchByCity).
  - reflexivity.
  - discriminate.
Defined.

(** ** The daily sequence is never empty *)

(** A snapshot that an intent installs is built from the two bodies that
    the world answered to the requests of the intent's fetch. *)
Lemma perform_SetWeather_bodies (w : World) (s : HookState) (i : Intent)
  (r : ResolvedWeather) :
  In (SetWeather r) (trace (perform w s i)) ->
  exists la lo u rc rf cur forecast,
    fetch_site w s i = Some (la, lo, u) /\
    http_current w la lo u = Ok rc /\ resp_json rc = Ok cur /\
    http_forecast w la lo u = Ok rf /\ resp_json rf = Ok forecast /\
    current r = o_current (build_oneCall cur forecast) /\
    daily r = o_daily (build_oneCall cur forecast).
Proof.
  intros Hin.
  destruct (perform_SetWeather w s i r Hin)
    as (la & lo & u & oc & Hsite & Hfetch & _ & Hc & Hd).
  destruct (fetchOneCall_ok_inv w la lo u Hfetch)
    as (rc & rf & cur & forecast & _ & Hrc & Hrf & _ & _ & Hjc & Hjf & _ & ->).
  exists la, lo, u, rc, rf, cur, forecast. auto 10.
Qed.

(** C4: after every successful resolution the daily sequence of the
    snapshot is non-empty.  Every snapshot that an intent installs comes
    from the current-conditions body and the forecast body that the world
    answered to the two requests of the intent's fetch; its current
    conditions are those of the first body, its daily sequence is never
    empty, it is the aggregation of the usable samples of the second body
    when that gives an entry, and otherwise it is the single entry made from
    the current conditions: minimum, maximum and representative temperature
    all equal to the current temperature, timestamp and condition those of
    the current observation.  Hence no reachable state of the hook holds a
    snapshot with an empty daily sequence. *)
Theorem daily_never_empty :
  (forall w s i r,
     In (SetWeather r) (trace (perform w s i)) ->
     daily r <> [] /\
     exists la lo u rc rf cur forecast,
       fetch_site w s i = Some (la, lo, u) /\
       http_current w la lo u = Ok rc /\ resp_json rc = Ok cur /\
       http_forecast w la lo u = Ok rf /\ resp_json rf = Ok forecast /\
       oc_dt (current r) = c_dt cur /\
       oc_temp (current r) = c_main_temp cur /\
       oc_weather (current r) = c_weather cur /\
       (aggregate (forecast_list forecast) <> [] ->
        daily r = aggregate (forecast_list forecast)) /\
       (aggregate (forecast_list forecast) = [] ->
        daily r =
          [{| d_dt := c_dt cur;
              d_min := c_main_temp cur;
              d_max := c_main_temp cur;
              d_day := c_main_temp cur;
              d_weather := c_weather cur |}])) /\
  (forall s r, reachable s -> s_weather s = Some r -> daily r <> []).
Proof.
  assert (Hev : forall w s i r,
     In (SetWeather r) (trace (perform w s i)) ->
     daily r <> [] /\
     exists la lo u rc rf cur forecast,
       fetch_site w s i = Some (la, lo, u) /\
       http_current w la lo u = Ok rc /\ resp_json rc = Ok cur /\
       http_forecast w la lo u = Ok rf /\ resp_json rf = Ok forecast /\
       oc_dt (current r) = c_dt cur /\
       oc_temp (current r) = c_main_temp cur /\
       oc_weather (current r) = c_weather cur /\
       (aggregate (forecast_list forecast) <> [] ->
        daily r = aggregate (forecast_list forecast)) /\
       (aggregate (forecast_list forecast) = [] ->
        daily r =
          [{| d_dt := c_dt cur;
              d_min := c_main_temp cur;
              d_max := c_main_temp cur;
              d_day := c_main_temp cur;
              d_weather := c_weather cur |}])).
  { intros w s i r Hin.
    destruct (perform_SetWeather_bodies w s i r Hin)
      as (la & lo & u & rc & rf & cur & forecast & Hsite & Hrc & Hjc & Hrf & Hjf & Hc & Hd).
    destruct (build_oneCall_daily cur forecast) as (Hne & Hagg & Hsyn).
    destruct (build_oneCall_current cur forecast) as (Hw & Ht & Hdt).
    cbn zeta in Hne, Hagg, Hsyn, Hw, Ht, Hdt.
    rewrite Hd. split; [exact Hne|].
    exists la, lo, u, rc, rf, cur, forecast. rewrite Hc.
    do 5 (split; [assumption|]).
    split; [exact Hdt|]. split; [exact Ht|]. split; [exact Hw|].
    split; [exact Hagg|].
    intros He. rewrite (Hsyn He), Hw, Ht, Hdt. reflexivity. }
  split; [exact Hev|].
  intros s r Hreach. revert r.
  induction Hreach as [|s q _ IH|w s i _ IH]; intros r Hr.
  - discriminate.
  - exact (IH r Hr).
  - apply run_weather in Hr. destruct Hr as [Hr|Hr].
    + exact (IH r Hr).
    + exact (proj1 (Hev w s i r Hr)).
Qed.

(** In [world_forecast_cod] the forecast body reports a failure: the search
    for Paris installs a snapshot whose only daily entry is made of the
    current conditions of the world's answer. *)
Lemma daily_never_empty_witness :
  (exists r, s_weather state_paris = Some r /\ daily r <> []) /\
  (exists r,
     In (SetWeather r)
       (trace (perform world_forecast_cod (state_searching "Paris") SearchByCity)) /\
     daily r = [{| d_dt := 1699960000; d_min := 18; d_max := 18; d_day := 18;
                   d_weather := [clear_sky] |}]).
Proof.
  split.
  - eexists. split; [reflexivity|].
    apply (proj2 daily_never_empty state_paris).
    + exact (reachable_perform world_paris SearchByCity
               (reachable_query "Paris" reachable_initial)).
    + reflexivity.
  - assert (H : exists r,
               In (SetWeather r)
                 (trace (perform world_forecast_cod
                           (state_searching "Paris") SearchByCity))).
    { eexists. vm_compute. repeat first [left; reflexivity | right]. }
    destruct H as [r Hin]. exists r. split; [exact Hin|].
    destruct (proj1 daily_never_empty _ _ _ _ Hin)
      as (_ & la & lo & u & rc & rf & cur & forecast & Hsite & Hrc & Hjc & Hrf & Hjf
          & _ & _ & _ & _ & Hsyn).
    cbn in Hrc, Hrf. injection Hrc as <-. injection Hrf as <-.
    cbn in Hjc, Hjf. injection Hjc as <-. injection Hjf as <-.
    exact (Hsyn eq_refl).
Defined.

(** ** Changing the unit system *)

Lemma handleUnitsChange_thrown (w : World) (s : HookState) (next : Units)
  (snapshot : ResolvedWeather) (e : Exn) :
  next <> s_units s ->
  s_weather s = Some snapshot ->
  outcome (fetchOneCall w (lat snapshot) (lon snapshot) next) = Throw e ->
  handleUnitsChange w s next =
    (([SetUnits next; SetFetchState loading; SetError None]
      ++ trace (fetchOneCall w (lat snapshot) (lon snapshot) next)
      ++ [SetFetchState error;
          SetError (Some "Unable to refresh weather for the new unit.")])%list,
     Ok tt).
Proof.
  intros Hne Hw Hfetch. unfold handleUnitsChange, outcome, trace in *.
  destruct (Units_eqb_spec next (s_units s)); [contradiction|].
  rewrite Hw. cbn.
  destruct (fetchOneCall w (lat snapshot) (lon snapshot) next) as [l [oc|e']];
    cbn in *; [discriminate|reflexivity].
Qed.

(** C5: when a unit change on a state that holds a snapshot fails because
    the re-fetch at the snapshot's coordinates throws, the state ends in
    error with the refresh-specific message and the snapshot that was
    displayed is still there, untouched: no snapshot is installed or
    cleared on the way. *)
Theorem failed_unit_change_keeps_snapshot (w : World) (s : HookState) (next : Units)
  (snapshot : ResolvedWeather) (e : Exn) :
  next <> s_units s ->
  s_weather s = Some snapshot ->
  outcome (fetchOneCall w (lat snapshot) (lon snapshot) next) = Throw e ->
  s_fetchState (run s (handleUnitsChange w s next)) = error /\
  s_error (run s (handleUnitsChange w s next))
    = Some "Unable to refresh weather for the new unit." /\
  s_weather (run s (handleUnitsChange w s next)) = Some snapshot /\
  forall r, ~ In (SetWeather r) (trace (handleUnitsChange w s next)).
Proof.
  intros Hne Hw Hfetch.
  rewrite (handleUnitsChange_thrown w s Hne Hw Hfetch).
  pose proof (fetchOneCall_network_only w (lat snapshot) (lon snapshot) next) as Hnet.
  unfold network_only in Hnet.
  repeat split.
  1-3: fold_events; cbn; auto.
  intros r Hin. in_trace Hin.
Qed.

Lemma failed_unit_change_keeps_snapshot_witness :
  s_weather (run state_paris (handleUnitsChange world_offline state_paris imperial))
  = s_weather state_paris.
Proof.
  refine (proj1 (proj2 (proj2
    (@failed_unit_change_keeps_snapshot world_offline state_paris imperial
       {| locationName := "Paris, Ile-de-France, FR"; countryCode := Some "FR";
          current := o_current (build_oneCall paris_current paris_forecast);
          daily := o_daily (build_oneCall paris_current paris_forecast);
          timezoneOffset := 3600; lat := 4885; lon := 235 |}
       failed_to_fetch _ _ _)))).
  - discriminate.
  - reflexivity.
  - reflexivity.
Defined.

(** C9: a unit change to a unit system other than the current one, on a
    state that holds a snapshot, sets the unit preference before the
    re-fetch is issued and never sets it again: when the re-fetch throws,
    the unit system of the resulting state is the requested one, different
    from the one before, while the snapshot is the one fetched before the
    change. *)
Theorem failed_unit_change_keeps_new_unit (w : World) (s : HookState) (next : Units)
  (snapshot : ResolvedWeather) (e : Exn) :
  next <> s_units s ->
  s_weather s = Some snapshot ->
  outcome (fetchOneCall w (lat snapshot) (lon snapshot) next) = Throw e ->
  trace (handleUnitsChange w s next) =
    ([SetUnits next; SetFetchState loading; SetError None]
     ++ trace (fetchOneCall w (lat snapshot) (lon snapshot) next)
     ++ [SetFetchState error;
         SetError (Some "Unable to refresh weather for the new unit.")])%list /\
  network_only (fetchOneCall w (lat snapshot) (lon snapshot) next) /\
  s_units (run s (handleUnitsChange w s next)) = next /\
  s_units (run s (handleUnitsChange w s next)) <> s_units s /\
  s_weather (run s (handleUnitsChange w s next)) = s_weather s.
Proof.
  intros Hne Hw Hfetch.
  rewrite (handleUnitsChange_thrown w s Hne Hw Hfetch).
  pose proof (fetchOneCall_network_only w (lat snapshot) (lon snapshot) next) as Hnet.
  split; [reflexivity|]. split; [exact Hnet|].
  unfold network_only in Hnet.
  assert (Hu : s_units (run s
            (([SetUnits next; SetFetchState loading; SetError None]
              ++ trace (fetchOneCall w (lat snapshot) (lon snapshot) next)
              ++ [SetFetchState error;
                  SetError (Some "Unable to refresh weather for the new unit.")])%list,
             Ok tt)) = next)
    by (fold_events; reflexivity).
  split; [exact Hu|]. split; [rewrite Hu; exact Hne|].
  fold_events. reflexivity.
Qed.

Lemma failed_unit_change_keeps_new_unit_witness :
  s_units (run state_paris (handleUnitsChange world_offline state_paris imperial))
  = imperial.
Proof.
  refine (proj1 (proj2 (proj2
    (@failed_unit_change_keeps_new_unit world_offline state_paris imperial
       {| locationName := "Paris, Ile-de-France, FR"; countryCode := Some "FR";
          current := o_current (build_oneCall paris_current paris_forecast);
          daily := o_daily (build_oneCall paris_current paris_forecast);
          timezoneOffset := 3600; lat := 4885; lon := 235 |}
       failed_to_fetch _ _ _)))).
  - discriminate.
  - reflexivity.
  - reflexivity.
Defined.

(** C7: asking for the unit system that is already current does nothing:
    no event at all, so no network call and the same state; asking for a
    different one when there is no snapshot only sets the unit preference:
    a single [setUnits], no network call, and every other cell unchanged. *)
Theorem unit_change_noop (w : World) (s : HookState) (next : Units) :
  (next = s_units s ->
   trace (handleUnitsChange w s next) = [] /\
   existsb is_network_call (trace (handleUnitsChange w s next)) = false /\
   run s (handleUnitsChange w s next) = s) /\
  (next <> s_units s -> s_weather s = None ->
   trace (handleUnitsChange w s next) = [SetUnits next] /\
   existsb is_network_call (trace (handleUnitsChange w s next)) = false /\
   s_units (run s (handleUnitsChange w s next)) = next /\
   s_fetchState (run s (handleUnitsChange w s next)) = s_fetchState s /\
   s_error (run s (handleUnitsChange w s next)) = s_error s /\
   s_weather (run s (handleUnitsChange w s next)) = None /\
   s_searchQuery (run s (handleUnitsChange w s next)) = s_searchQuery s /\
   s_searchMode (run s (handleUnitsChange w s next)) = s_searchMode s /\
   s_backgroundKind (run s (handleUnitsChange w s next)) = s_backgroundKind s).
Proof.
  unfold handleUnitsChange. split.
  - intros ->. destruct (Units_eqb_spec (s_units s) (s_units s)); [|contradiction].
    repeat split.
  - intros Hne Hw. destruct (Units_eqb_spec next (s_units s)); [contradiction|].
    rewrite Hw. cbn. repeat split. unfold run. cbn. exact Hw.
Qed.

Lemma unit_change_noop_witness :
  run state_paris (handleUnitsChange world_paris state_paris metric) = state_paris /\
  trace (handleUnitsChange world_paris initial_state imperial) = [SetUnits imperial].
Proof.
  split.
  - apply (proj1 (unit_change_noop world_paris state_paris metric)). reflexivity.
  - apply (proj2 (unit_change_noop world_paris initial_state imperial)).
    + discriminate.
    + reflexivity.
Defined.

(** ** Searching with a blank query *)

(** C6: when the query trims to the empty string, [searchByCity] only sets
    the "enter a city name" message: [fetchState] is never set, so the hook
    does not enter loading and its fetch state is the one it had; no
    geocoding or weather request is issued; the snapshot stays. *)
Theorem blank_query_fails_fast (w : World) (s : HookState) :
  trim (s_searchQuery s) = "" ->
  trace (searchByCity w s) = [SetError (Some "Please enter a city name")] /\
  s_error (run s (searchByCity w s)) = Some "Please enter a city name" /\
  s_fetchState (run s (searchByCity w s)) = s_fetchState s /\
  (forall f, ~ In (SetFetchState f) (trace (searchByCity w s))) /\
  existsb is_network_call (trace (searchByCity w s)) = false /\
  s_weather (run s (searchByCity w s)) = s_weather s.
Proof.
  intros Hblank. unfold searchByCity. rewrite Hblank. cbn.
  repeat split. intros f Hin. destruct Hin as [Hf|[]]. discriminate Hf.
Qed.

Lemma blank_query_fails_fast_witness :
  s_error (run state_paris (searchByCity world_paris (setSearchQuery state_paris "   ")))
    = Some "Please enter a city name" /\
  s_fetchState (run (state_searching "") (searchByCity world_paris (state_searching "")))
    = idle /\
  trace (searchByCity world_paris
           (state_searching (no_break_space ++ " " ++ ideographic_space)))
    = [SetError (Some "Please enter a city name")].
Proof.
  split; [|split].
  - refine (proj1 (proj2
      (@blank_query_fails_fast world_paris (setSearchQuery state_paris "   ") _))).
    reflexivity.
  - refine (proj1 (proj2 (proj2
      (@blank_query_fails_fast world_paris (state_searching "") _)))).
    reflexivity.
  - refine (proj1
      (@blank_query_fails_fast world_paris
         (state_searching (no_break_space ++ " " ++ ideographic_space)) _)).
    reflexivity.
Defined.

(** ** Reverse geocoding is best effort *)

(** C8: [reverseGeocode] always returns and never throws; a transport
    failure, a response that is not ok and a body that does not parse all
    give [null].  So on mount, with the device position known and the
    weather fetched, the hook reaches success whatever the reverse lookup
    did, and when the lookup gave [null] the snapshot is labelled "Current
    location". *)
Theorem reverseGeocode_best_effort (w : World) (la lo : number) :
  (exists r, outcome (reverseGeocode w la lo) = Ok r) /\
  (forall e, http_reverse w la lo = Throw e ->
             outcome (reverseGeocode w la lo) = Ok None) /\
  (forall resp, http_reverse w la lo = Ok resp -> resp_ok resp = false ->
                outcome (reverseGeocode w la lo) = Ok None) /\
  (forall resp e, http_reverse w la lo = Ok resp -> resp_json resp = Throw e ->
                  outcome (reverseGeocode w la lo) = Ok None) /\
  (forall s oc,
     has_geolocation w = true ->
     position w = PositionOk la lo ->
     outcome (fetchOneCall w la lo (s_units s)) = Ok oc ->
     oc_weather (o_current oc) <> [] ->
     s_fetchState (run s (mountEffect w s)) = success /\
     exists r,
       s_weather (run s (mountEffect w s)) = Some r /\
       current r = o_current oc /\ daily r = o_daily oc /\
       (outcome (reverseGeocode w la lo) = Ok None ->
        locationName r = "Current location" /\ countryCode r = None)).
Proof.
  split; [apply reverseGeocode_returns|].
  split; [|split; [|split]].
  - intros e H. unfold reverseGeocode, outcome, fetch. rewrite H. reflexivity.
  - intros resp H Hok. unfold reverseGeocode, outcome, fetch. rewrite H. cbn.
    rewrite Hok. reflexivity.
  - intros resp e H Hj. unfold reverseGeocode, outcome, fetch. rewrite H. cbn.
    destruct (resp_ok resp); cbn; [|reflexivity]. rewrite Hj. reflexivity.
  - intros s oc Hgeo Hpos Hfetch Hhead.
    destruct (oc_weather (o_current oc)) as [|h t] eqn:Hw; [congruence|].
    unfold outcome in *. unfold_intent. rewrite Hgeo, Hpos. cbn.
    name_calls. rewrite Hw. cbn.
    split; [fold_events; reflexivity|].
    eexists. split; [fold_events; reflexivity|].
    cbn. do 2 (split; [reflexivity|]).
    intros Hnone. injection Hnone as ->. split; reflexivity.
Qed.

Lemma reverseGeocode_best_effort_witness :
  outcome (reverseGeocode world_no_geocoding 4885 235) = Ok None /\
  s_fetchState (run initial_state (mountEffect world_no_geocoding initial_state)) = success.
Proof.
  split.
  - apply (proj1 (proj2 (reverseGeocode_best_effort world_no_geocoding 4885 235))
             failed_to_fetch).
    reflexivity.
  - refine (proj1 (proj2 (proj2 (proj2 (proj2
      (reverseGeocode_best_effort world_no_geocoding 4885 235))))
      initial_state (build_oneCall paris_current paris_forecast) _ _ _ _)).
    + reflexivity.
    + reflexivity.
    + reflexivity.
    + discriminate.
Defined.

(** ** Success needs a first weather element *)

(** C10: every way into success goes through the first element of the
    current-conditions [weather] array: an intent that sets the success
    state has installed a snapshot whose [weather] array is non-empty.
    When the fetch of an intent returns current conditions with an empty
    [weather] array, reading the first element throws, the [catch] of the
    intent runs, and the resolution fails: success is never set, the fetch
    state is the one the [catch] settles on (error; idle for the
    default-city fallback), the error message is the one the [catch] makes
    of the type error, and the snapshot is not touched. *)
Theorem success_needs_weather_head :
  (forall w s i,
     In (SetFetchState success) (trace (perform w s i)) ->
     exists r,
       In (SetWeather r) (trace (perform w s i)) /\
       oc_weather (current r) <> []) /\
  (forall w s i la lo u oc,
     fetch_site w s i = Some (la, lo, u) ->
     outcome (fetchOneCall w la lo u) = Ok oc ->
     oc_weather (o_current oc) = [] ->
     ~ In (SetFetchState success) (trace (perform w s i)) /\
     s_fetchState (run s (perform w s i)) = caught_state w i /\
     s_fetchState (run s (perform w s i)) <> success /\
     s_error (run s (perform w s i))
       = Some (caught_message w i (TypeError_undefined "main")) /\
     s_weather (run s (perform w s i)) = s_weather s).
Proof.
  split.
  - intros w s i Hin.
    destruct (perform_success_event w s i Hin)
      as (la & lo & u & oc & r & _ & _ & Hne & Hr & Hc & _).
    exists r. split; [exact Hr|]. rewrite Hc. exact Hne.
  - intros w s i la lo u oc Hsite Hfetch Hhead.
    destruct (perform_headless w s i Hsite Hfetch Hhead) as (Hst & Herr & Hw & _ & Hno).
    repeat split; try assumption.
    rewrite Hst. apply caught_state_not_success.
Qed.

Lemma success_needs_weather_head_witness :
  s_fetchState (run (state_searching "Paris")
                  (perform world_bare (state_searching "Paris") SearchByCity)) = error /\
  s_error (run state_paris (perform world_bare state_paris (ChangeUnits imperial)))
    = Some "Unable to refresh weather for the new unit." /\
  exists r, In (SetWeather r)
              (trace (perform world_paris (state_searching "Paris") SearchByCity)) /\
            oc_weather (current r) <> [].
Proof.
  split; [|split].
  - refine (proj1 (proj2 (proj2 success_needs_weather_head
      world_bare (state_searching "Paris") SearchByCity 4885 235 metric
      (build_oneCall paris_current_bare paris_forecast) _ _ _))).
    + reflexivity.
    + reflexivity.
    + reflexivity.
  - refine (proj1 (proj2 (proj2 (proj2 (proj2 success_needs_weather_head
      world_bare state_paris (ChangeUnits imperial) 4885 235 imperial
      (build_oneCall paris_current_bare paris_forecast) _ _ _))))).
    + reflexivity.
    + reflexivity.
    + reflexivity.
  - apply (proj1 success_needs_weather_head
             world_paris (state_searching "Paris") SearchByCity).
    vm_compute. repeat first [left; reflexivity | right].
Defined.

(** * Further properties *)

(** ** The classifier, read backwards *)

(** From the value to the inputs, and from the inputs to the value. *)
Ltac fwd :=
  solve [ discriminate | lia | left; lia
        | right; split; [assumption|];
          first [reflexivity | left; reflexivity | right; reflexivity] ].

Ltac bwd :=
  unfold no_code_rule in *;
  match goal with
  | H : _ \/ _ |- _ =>
      destruct H as [H|[Hn H]];
      [ solve [lia | reflexivity]
      | solve [ unfold no_code_rule in Hn; lia | reflexivity | congruence
              | destruct H; congruence ] ]
  | H : _ <= _ <= _ |- _ => solve [lia | reflexivity]
  end.

(** X1: which inputs give which background.  Sunny comes from the codes
    800 to 802 and from nothing else, so no text, not even "Clear", makes a
    sunny background; storm, snow and rain come from their code ranges or,
    when no numeric rule applies, from their texts. *)
Theorem classifyBackground_inverse (main : WeatherMain) (code : number) :
  (classifyBackground main code = sunny <-> 800 <= code <= 802) /\
  (classifyBackground main code = storm <->
     200 <= code < 300 \/ (no_code_rule code /\ main = "Thunderstorm")) /\
  (classifyBackground main code = snow <->
     600 <= code < 700 \/ (no_code_rule code /\ main = "Snow")) /\
  (classifyBackground main code = rain <->
     500 <= code < 600 \/ (no_code_rule code /\ (main = "Drizzle" \/ main = "Rain"))).
Proof.
  assert (Htext : no_code_rule code \/ ~ no_code_rule code)
    by (unfold no_code_rule; lia).
  destruct Htext as [Hno|Hyes].
  - rewrite (classify_textual main Hno).
    destruct (String.eqb_spec main "Drizzle") as [->|Nd]; cbn;
      [repeat apply conj; intros Hside; solve [fwd | bwd]|].
    destruct (String.eqb_spec main "Rain") as [->|Nr]; cbn;
      [repeat apply conj; intros Hside; solve [fwd | bwd]|].
    destruct (String.eqb_spec main "Snow") as [->|Ns]; cbn;
      [repeat apply conj; intros Hside; solve [fwd | bwd]|].
    destruct (String.eqb_spec main "Thunderstorm") as [->|Nt]; cbn;
      repeat apply conj; intros Hside; solve [fwd | bwd].
  - unfold classifyBackground. unfold no_code_rule in Hyes.
    zbool; repeat apply conj; intros Hside; solve [fwd | bwd].
Qed.

Lemma classifyBackground_inverse_witness :
  800 <= 801 <= 802 /\ no_code_rule 741 /\ classifyBackground "Clear" 741 <> sunny.
Proof.
  split; [lia|]. split; [unfold no_code_rule; lia|].
  intros H. apply (proj1 (proj1 (classifyBackground_inverse "Clear" 741))) in H. lia.
Defined.

(** ** More on the daily aggregation *)

Lemma day_samples_key (k : DayKey) (items : list ForecastItem) :
  Forall (fun it => item_key it = k) (day_samples k items).
Proof.
  apply Forall_forall. intros it Hin. apply filter_In in Hin.
  destruct Hin as [_ H]. now destruct (DayKey_eqb_spec (item_key it) k).
Qed.

Lemma day_samples_incl (k : DayKey) (items : list ForecastItem) (it : ForecastItem) :
  In it (day_samples k items) -> In it items.
Proof. intros H. now apply filter_In in H. Qed.

(** X2: the aggregation gives no entry exactly when there is no sample, so
    the result of a fetch carries the entry made from the current conditions
    exactly when the usable forecast list is empty, and the aggregated days
    otherwise. *)
Theorem aggregate_empty_iff (items : list ForecastItem) :
  (aggregate items = [] <-> items = []) /\
  forall cur forecast,
    (forecast_list forecast = [] ->
     o_daily (build_oneCall cur forecast)
       = [promoted (o_current (build_oneCall cur forecast))]) /\
    (forecast_list forecast <> [] ->
     o_daily (build_oneCall cur forecast) = aggregate (forecast_list forecast)).
Proof.
  assert (Hiff : forall l, aggregate l = [] <-> l = []).
  { intros l. split; [|now intros ->].
    rewrite aggregate_eq. destruct l as [|x l]; [reflexivity|].
    cbn. discriminate. }
  split; [apply Hiff|].
  intros cur forecast.
  destruct (build_oneCall_daily cur forecast) as (_ & Hagg & Hsyn).
  split.
  - intros He. apply Hsyn. now apply Hiff.
  - intros Hne. apply Hagg. intros He. apply Hne. now apply Hiff.
Qed.

Lemma aggregate_empty_iff_witness :
  aggregate paris_samples <> [] /\
  o_daily (build_oneCall paris_current failed_forecast)
    = [promoted (o_current (build_oneCall paris_current failed_forecast))].
Proof.
  split.
  - intros H. apply (proj1 (proj1 (aggregate_empty_iff paris_samples))) in H.
    discriminate H.
  - apply (proj1 (proj2 (aggregate_empty_iff []) paris_current failed_forecast)).
    reflexivity.
Defined.

Lemma aggregate_days (items : list ForecastItem) :
  map (fun d => dayKey (d_dt d)) (aggregate items) = firstn 8 (days_first_seen items).
Proof.
  rewrite aggregate_eq, map_map.
  rewrite <- (map_id (firstn 8 (days_first_seen items))) at 2.
  apply map_ext_in. intros k Hk.
  apply In_firstn in Hk.
  pose proof (day_samples_nonempty _ _ Hk) as Hne.
  pose proof (day_samples_key k items) as Hkey.
  destruct (day_samples k items) as [|first rest]; [congruence|].
  unfold to_daily, acc_of. cbn.
  rewrite widen_all_dt. cbn.
  now inversion Hkey.
Qed.

Lemma samples_of_leader (items : list ForecastItem) (first : ForecastItem) :
  In first (day_leaders items) ->
  exists rest, samples_of_day first items = first :: rest.
Proof.
  induction items as [|a items IH]; cbn; [easy|].
  intros [->|H].
  - unfold samples_of_day. cbn. rewrite same_utc_day_refl. eauto.
  - apply filter_In in H. destruct H as [Hin Hday].
    apply negb_true_iff in Hday.
    unfold samples_of_day. cbn. rewrite Hday. now apply IH.
Qed.

Lemma aggregate_leaders_dt (items : list ForecastItem) :
  map d_dt (aggregate items) = map f_dt (firstn 8 (day_leaders items)).
Proof.
  rewrite aggregate_by_leaders, map_map.
  apply map_ext_in. intros first Hin. apply In_firstn in Hin.
  destruct (samples_of_leader _ _ Hin) as [rest ->].
  unfold to_daily, acc_of. cbn. apply widen_all_dt.
Qed.

Lemma NoDup_map_finer {A B C} (f : A -> B) (g : A -> C) (l : list A) :
  (forall a b, g a = g b -> f a = f b) -> NoDup (map f l) -> NoDup (map g l).
Proof.
  intros Hfg. induction l as [|x l IH]; cbn; intros Hnd; [constructor|].
  inversion Hnd as [|y ys Hx Hl]; subst. constructor; [|now apply IH].
  intros Hin. apply Hx. apply in_map_iff in Hin. destruct Hin as (z & Hz & Hin).
  apply in_map_iff. exists z. split; [now apply Hfg | exact Hin].
Qed.

(** X3: the entries of the aggregation lie on pairwise distinct UTC days.
    The entries carry, in order, the timestamps of the first sample of each
    of the first eight UTC days of the sequence (the timestamps that [Date]
    cannot hold counting as one day); no two entries have their timestamps
    on the same UTC day, and there are at most eight entries. *)
Theorem aggregate_days_distinct (items : list ForecastItem) :
  map d_dt (aggregate items) = map f_dt (firstn 8 (day_leaders items)) /\
  NoDup (map (fun d => utc_day_of (d_dt d)) (aggregate items)) /\
  (List.length (aggregate items) <= 8)%nat.
Proof.
  split; [apply aggregate_leaders_dt|]. split.
  - apply NoDup_map_finer with (f := fun d => dayKey (d_dt d)).
    + intros a b E. now apply dayKey_same_day.
    + rewrite aggregate_days.
      pose proof (days_first_seen_NoDup items) as Hnd.
      rewrite <- (firstn_skipn 8 (days_first_seen items)) in Hnd.
      now apply NoDup_app_remove_r in Hnd.
  - rewrite <- (length_map d_dt), aggregate_leaders_dt, length_map.
    apply firstn_le_length.
Qed.

Example aggregate_days_of_paris_samples :
  map f_dt (day_leaders paris_samples) = [1699984800; 1700006400; 1700092800] /\
  map (fun d => utc_day_of (d_dt d)) (aggregate paris_samples)
  = [Some 19675; Some 19676; Some 19677].
Proof. split; reflexivity. Qed.

Lemma last_In_cons {A} (l : list A) (d : A) : In (last l d) (d :: l).
Proof.
  induction l as [|a l IH]; [now left|].
  destruct l as [|b l]; [right; now left|].
  change (last (a :: b :: l) d) with (last (b :: l) d).
  destruct IH as [IH|IH]; [now left | right; now right].
Qed.

(** X4: when every sample has its temperature between its own minimum and
    maximum, every daily entry has its representative temperature between
    its minimum and maximum. *)
Theorem aggregate_keeps_bounds (items : list ForecastItem) :
  Forall (fun it => f_temp_min it <= f_temp it <= f_temp_max it) items ->
  Forall (fun d => d_min d <= d_day d <= d_max d) (aggregate items).
Proof.
  intros Hb. rewrite aggregate_eq. apply Forall_map, Forall_forall.
  intros k Hk. apply In_firstn in Hk.
  pose proof (day_samples_nonempty _ _ Hk) as Hne.
  assert (Hg : Forall (fun it => f_temp_min it <= f_temp it <= f_temp_max it)
                 (day_samples k items)).
  { apply Forall_forall. intros it Hin. rewrite Forall_forall in Hb.
    apply Hb. eapply day_samples_incl; eassumption. }
  destruct (day_samples k items) as [|first rest]; [congruence|].
  destruct (acc_of_summarises first rest k)
    as (f' & r' & E & _ & Hmin & _ & Hmax & _ & Hday & _).
  injection E as <- <-.
  pose proof (last_In_cons rest first) as Hlast.
  rewrite Forall_forall in Hmin, Hmax, Hg.
  specialize (Hmin _ Hlast). specialize (Hmax _ Hlast). specialize (Hg _ Hlast).
  cbn beta in *. rewrite Hday. lia.
Qed.

Lemma aggregate_keeps_bounds_witness :
  Forall (fun d => d_min d <= d_day d <= d_max d) (aggregate paris_samples).
Proof.
  apply aggregate_keeps_bounds.
  repeat constructor; cbn; lia.
Defined.

(** X5: samples that arrive later never reorder or remove a day: the days
    of the entries aggregated from a sequence are a prefix of the days of
    the entries aggregated from any extension of it. *)
Theorem aggregate_days_prefix (items more : list ForecastItem) :
  exists later,
    map (fun d => dayKey (d_dt d)) (aggregate (items ++ more)) =
    (map (fun d => dayKey (d_dt d)) (aggregate items) ++ later)%list.
Proof.
  rewrite !aggregate_days.
  induction more as [|x more IH] using rev_ind.
  - exists []. now rewrite !app_nil_r.
  - destruct IH as [later IH].
    rewrite app_assoc, days_first_seen_snoc.
    destruct (existsb _ _); [now exists later|].
    set (ds := days_first_seen (items ++ more)) in *.
    destruct (Nat.le_gt_cases 8 (List.length ds)) as [Hlen|Hlen].
    + exists later. rewrite firstn_app.
      replace (8 - List.length ds)%nat with 0%nat by lia.
      cbn. now rewrite app_nil_r.
    + exists (later ++ firstn (8 - List.length ds) [item_key x])%list.
      rewrite firstn_app, IH. now rewrite app_assoc.
Qed.

(** ** More on the fetcher *)

Lemma str_or_nonempty (a : option string) (d : string) : d <> "" -> str_or a d <> "".
Proof.
  unfold str_or. destruct a as [s|]; [|auto].
  destruct (String.eqb_spec s ""); auto.
Qed.

Lemma append_nonempty_l (a b : string) : a <> "" -> (a ++ b)%string <> "".
Proof. destruct a; [congruence | discriminate]. Qed.

Lemma starts_with_append (p s : string) : starts_with p (p ++ s) = true.
Proof.
  induction p as [|c p IH]; [reflexivity|].
  change (starts_with (String c p) (String c (p ++ s)) = true).
  cbn [starts_with]. now rewrite Ascii.eqb_refl, IH.
Qed.

Lemma fetchOneCall_trace (w : World) (la lo : number) (u : Units) :
  trace (fetchOneCall w la lo u) =
  if api_key_invalid (trim (OPENWEATHER_API_KEY w)) then []
  else [Fetch (GetCurrent la lo (trim (OPENWEATHER_API_KEY w)) u);
        Fetch (GetForecast la lo (trim (OPENWEATHER_API_KEY w)) u)].
Proof.
  unfold fetchOneCall, fetchWeatherFree, trace, fetch, promise_all.
  destruct (api_key_invalid _); [reflexivity|].
  destruct (http_current w la lo u) as [rc|]; cbn;
    destruct (http_forecast w la lo u) as [rf|]; cbn; try reflexivity;
    [|destruct (forecast_rejects_first w la lo u); reflexivity].
  destruct (resp_ok rc); cbn; [|destruct (_ =? _); reflexivity].
  destruct (resp_ok rf); cbn; [|reflexivity].
  destruct (resp_json rc) as [cur|]; cbn; [|reflexivity].
  destruct (resp_json rf) as [forecast|]; cbn; [|reflexivity].
  destruct (cod_ok (c_cod cur)); reflexivity.
Qed.

(** X6: with an invalid key (empty or shorter than 20 characters once
    trimmed) [fetchWeatherFree] throws before any request; with a valid key
    it issues exactly two requests, current conditions and forecast, both
    for the same coordinates, key and unit system, whatever they answer. *)
Theorem fetchWeatherFree_requests (w : World) (la lo : number) (u : Units) :
  (api_key_invalid (trim (OPENWEATHER_API_KEY w)) = true ->
   fetchWeatherFree w la lo u
     = ([], Throw (Error "API key appears to be invalid or missing"))) /\
  (api_key_invalid (trim (OPENWEATHER_API_KEY w)) = false ->
   trace (fetchWeatherFree w la lo u)
     = [Fetch (GetCurrent la lo (trim (OPENWEATHER_API_KEY w)) u);
        Fetch (GetForecast la lo (trim (OPENWEATHER_API_KEY w)) u)]).
Proof.
  split; intros E.
  - unfold fetchWeatherFree. now rewrite E.
  - pose proof (fetchOneCall_trace w la lo u) as H. rewrite E in H. exact H.
Qed.

Lemma fetchWeatherFree_requests_witness :
  trace (fetchWeatherFree world_offline 4885 235 metric)
  = [Fetch (GetCurrent 4885 235 "b41041e3afb56d1f28980fed79937920" metric);
     Fetch (GetForecast 4885 235 "b41041e3afb56d1f28980fed79937920" metric)].
Proof.
  apply (proj2 (fetchWeatherFree_requests world_offline 4885 235 metric)).
  reflexivity.
Defined.

(** X7: [fetchWeatherFree] returns exactly when the key is valid, both
    requests are answered with an ok status, both bodies parse and the
    [cod] of the current conditions is absent or 200; what it returns is
    then built from the two bodies.  In every other case it throws. *)
Theorem fetchWeatherFree_returns_iff (w : World) (la lo : number) (u : Units)
  (oc : OneCallResponse) :
  outcome (fetchWeatherFree w la lo u) = Ok oc <->
  exists rc rf cur forecast,
    api_key_valid w /\
    http_current w la lo u = Ok rc /\ http_forecast w la lo u = Ok rf /\
    resp_ok rc = true /\ resp_ok rf = true /\
    resp_json rc = Ok cur /\ resp_json rf = Ok forecast /\
    cod_ok (c_cod cur) = true /\
    oc = build_oneCall cur forecast.
Proof.
  split.
  - apply fetchOneCall_ok_inv.
  - intros (rc & rf & cur & forecast & Hk & Hc & Hf & Hcok & Hfok & Hcj & Hfj & Hcod & ->).
    exact (@fetchOneCall_ok w la lo u rc rf cur forecast Hk Hc Hf Hcok Hfok Hcj Hfj Hcod).
Qed.

Lemma fetchWeatherFree_returns_iff_witness :
  outcome (fetchWeatherFree world_paris 4885 235 metric)
  = Ok (build_oneCall paris_current paris_forecast).
Proof.
  apply (proj2 (fetchWeatherFree_returns_iff world_paris 4885 235 metric
                  (build_oneCall paris_current paris_forecast))).
  exists (ok_response paris_current), (ok_response paris_forecast),
    paris_current, paris_forecast.
  repeat split.
Defined.

(** X8: a failure of the current-conditions leg is fatal whatever the
    forecast leg answered.  When both requests are answered and the
    current-conditions response is not ok, the fetch throws an [Error] with
    a non-empty message, which for the status 401 begins with "Invalid API
    key: "; when both responses are ok and parse but the [cod] of the
    current conditions reports a failure, it throws an [Error] with a
    non-empty message too. *)
Theorem current_failure_is_fatal (w : World) (la lo : number) (u : Units)
  (rc : Response CurrentWeatherResponse) (rf : Response ForecastResponse) :
  api_key_valid w ->
  http_current w la lo u = Ok rc ->
  http_forecast w la lo u = Ok rf ->
  (resp_ok rc = false ->
   exists msg,
     outcome (fetchWeatherFree w la lo u) = Throw (Error msg) /\ msg <> "" /\
     (resp_status rc = 401 -> starts_with "Invalid API key: " msg = true)) /\
  (forall cur forecast,
     resp_ok rc = true -> resp_ok rf = true ->
     resp_json rc = Ok cur -> resp_json rf = Ok forecast ->
     cod_ok (c_cod cur) = false ->
     exists msg,
       outcome (fetchWeatherFree w la lo u) = Throw (Error msg) /\ msg <> "").
Proof.
  unfold api_key_valid, fetchWeatherFree, outcome, fetch, promise_all.
  intros -> -> ->. cbn. split.
  - intros ->. cbn.
    assert (Hmsg : str_or (json_or_empty (resp_json rc) c_message)
                     ("HTTP " ++ string_of_number (resp_status rc)) <> "")
      by (apply str_or_nonempty; discriminate).
    destruct (Z.eqb_spec (resp_status rc) 401) as [E|N]; cbn.
    + eexists. split; [reflexivity|]. split; [discriminate|].
      intros _.
      exact (starts_with_append "Invalid API key: "
               (str_or (json_or_empty (resp_json rc) c_message)
                  ("HTTP " ++ string_of_number (resp_status rc))
                ++ ". Check your key at https://home.openweathermap.org/api_keys")).
    + eexists. split; [reflexivity|]. split; [exact Hmsg|]. congruence.
  - intros cur forecast -> -> -> -> ->. cbn.
    eexists. split; [reflexivity|]. apply str_or_nonempty. discriminate.
Qed.

Lemma current_failure_is_fatal_witness :
  exists msg,
    outcome (fetchWeatherFree
               (world_of (Ok (ok_response (GeoArray [paris]))) (Ok (error_response 401))
                         (Ok (ok_response paris_forecast))) 4885 235 metric)
      = Throw (Error msg) /\ msg <> "".
Proof.
  destruct (proj1 (@current_failure_is_fatal
              (world_of (Ok (ok_response (GeoArray [paris]))) (Ok (error_response 401))
                        (Ok (ok_response paris_forecast)))
              4885 235 metric (error_response 401) (ok_response paris_forecast)
              eq_refl eq_refl eq_refl) eq_refl) as (msg & H & Hne & _).
  exists msg. split; assumption.
Defined.

(** ** More on the geocoder *)

Lemma geocodeCity_thrown_message (w : World) (query : string) (e : Exn) :
  outcome (geocodeCity w query) = Throw e -> exn_message e <> "".
Proof.
  unfold geocodeCity, outcome.
  destruct (api_key_invalid _).
  - cbn. intros H. injection H as <-. discriminate.
  - match goal with |- context [try_catch ?m _] => destruct m as [l [a|e0]] end;
      cbn; [discriminate|].
    destruct (String.eqb_spec (exn_message e0) "") as [E|N]; cbn;
      intros H; injection H as <-; [discriminate | exact N].
Qed.

Lemma reverseGeocode_trace (w : World) (la lo : number) :
  trace (reverseGeocode w la lo)
  = [Fetch (GetReverse la lo (trim (OPENWEATHER_API_KEY w)))].
Proof.
  unfold reverseGeocode, trace, fetch.
  destruct (http_reverse w la lo) as [resp|]; cbn; [|reflexivity].
  destruct (resp_ok resp); cbn; [|reflexivity].
  destruct (resp_json resp); reflexivity.
Qed.

Lemma string_append_assoc (a b c : string) :
  ((a ++ b) ++ c)%string = (a ++ b ++ c)%string.
Proof.
  induction a as [|x a IH]; [reflexivity|].
  change (String x ((a ++ b) ++ c) = String x (a ++ b ++ c)). now rewrite IH.
Qed.

Lemma eqb_append_literal (c : ascii) (a b : string) :
  (String c a ++ b =? "")%string = false.
Proof. reflexivity. Qed.

Ltac named_401 m :=
  exact (starts_with_append "API key authentication failed: "
           (m ++ ". Please verify your API key is correct and activated at https://home.openweathermap.org/api_keys")).

Ltac named_other resp m :=
  change (starts_with
            ("Geocoding API error (" ++ string_of_number (resp_status resp) ++ "): ")
            ("Geocoding API error (" ++ string_of_number (resp_status resp) ++ "): " ++ m)
          = true);
  replace ("Geocoding API error (" ++ string_of_number (resp_status resp) ++ "): " ++ m)%string
    with (("Geocoding API error (" ++ string_of_number (resp_status resp) ++ "): ") ++ m)%string
    by (now rewrite !string_append_assoc);
  apply starts_with_append.

(** X9: a geocoding response that is not ok never yields a place: with a
    valid key, [geocodeCity] throws.  When the body of the response can be
    read, as JSON or else as text, the message names the failure: it begins
    with "API key authentication failed: " for the status 401 and with
    "Geocoding API error (status): " for any other. *)
Theorem geocodeCity_not_ok_throws (w : World) (query : string) (resp : Response GeoJson) :
  api_key_valid w ->
  http_geocode w (trim query) = Ok resp ->
  resp_ok resp = false ->
  exists e,
    outcome (geocodeCity w query) = Throw e /\
    ((exists data, resp_json resp = Ok data) \/ (exists text, resp_text resp = Ok text) ->
     (resp_status resp = 401 ->
      starts_with "API key authentication failed: " (exn_message e) = true) /\
     (resp_status resp <> 401 ->
      starts_with ("Geocoding API error (" ++ string_of_number (resp_status resp) ++ "): ")
        (exn_message e) = true)).
Proof.
  unfold api_key_valid, geocodeCity, outcome, fetch.
  intros -> -> Hok. cbn. rewrite Hok. cbn.
  destruct (resp_json resp) as [data|ej]; [|destruct (resp_text resp) as [text|et]]; cbn.
  - destruct (Z.eqb_spec (resp_status resp) 401) as [E|N]; cbn;
      rewrite eqb_append_literal; cbn;
      (eexists; split; [reflexivity|]; intros _; split; intros Hs; [|]);
      try congruence; cbn [exn_message Error].
    + named_401 (geo_error_message data ("HTTP " ++ string_of_number (resp_status resp))).
    + named_other resp
        (geo_error_message data ("HTTP " ++ string_of_number (resp_status resp))).
  - destruct (Z.eqb_spec (resp_status resp) 401) as [E|N]; cbn;
      rewrite eqb_append_literal; cbn;
      (eexists; split; [reflexivity|]; intros _; split; intros Hs; [|]);
      try congruence; cbn [exn_message Error].
    + named_401 (str_or (Some text) ("HTTP " ++ string_of_number (resp_status resp))).
    + named_other resp
        (str_or (Some text) ("HTTP " ++ string_of_number (resp_status resp))).
  - destruct (exn_message et =? "")%string; cbn; eexists;
      (split; [reflexivity|]); intros [[d Hd]|[t Ht]]; discriminate.
Qed.

Lemma geocodeCity_not_ok_throws_witness :
  exists e,
    outcome (geocodeCity
               (world_of (Ok (error_response 401)) (Throw failed_to_fetch)
                         (Throw failed_to_fetch)) "Paris") = Throw e /\
    starts_with "API key authentication failed: " (exn_message e) = true.
Proof.
  destruct (@geocodeCity_not_ok_throws
              (world_of (Ok (error_response 401)) (Throw failed_to_fetch)
                        (Throw failed_to_fetch)) "Paris" (error_response 401)
              eq_refl eq_refl eq_refl) as (e & He & Hp).
  exists e. split; [exact He|].
  exact (proj1 (Hp (or_intror (ex_intro _ "" eq_refl))) eq_refl).
Defined.

(** ** Trimming twice is trimming once *)

Lemma string_append_nil_r (a : string) : (a ++ "")%string = a.
Proof.
  induction a as [|x a IH]; [reflexivity|].
  change (String x (a ++ "") = String x a). now rewrite IH.
Qed.

Lemma string_append_cons (c : ascii) (a b : string) :
  (String c a ++ b)%string = String c (a ++ b).
Proof. reflexivity. Qed.

Lemma string_append_nil_l (a : string) : ("" ++ a)%string = a.
Proof. reflexivity. Qed.

Lemma string_length_append (a b : string) :
  String.length (a ++ b) = (String.length a + String.length b)%nat.
Proof.
  induction a as [|x a IH]; [reflexivity|].
  rewrite string_append_cons. cbn. now rewrite IH.
Qed.

Lemma string_rev_append (a b : string) :
  string_rev (a ++ b) = (string_rev b ++ string_rev a)%string.
Proof.
  induction a as [|x a IH].
  - change (string_rev b = (string_rev b ++ "")%string).
    now rewrite string_append_nil_r.
  - change (string_rev (a ++ b) ++ String x "" =
            string_rev b ++ string_rev a ++ String x "")%string.
    now rewrite IH, string_append_assoc.
Qed.

Lemma string_rev_involutive (a : string) : string_rev (string_rev a) = a.
Proof.
  induction a as [|x a IH]; [reflexivity|].
  change (string_rev (string_rev a ++ String x "") = String x a).
  rewrite string_rev_append, IH. reflexivity.
Qed.

Section StripLemmas.
Variable p1 : ascii -> bool.
Variable p2 : ascii -> ascii -> bool.
Variable p3 : ascii -> ascii -> ascii -> bool.

Lemma strip_all_unfold (s : string) :
  strip_all p1 p2 p3 s =
  match strip_one p1 p2 p3 s with Some r => strip_all p1 p2 p3 r | None => s end.
Proof.
  destruct s as [|c1 [|c2 [|c3 s3]]]; cbn; try reflexivity.
  - now destruct (p1 c1).
  - destruct (p1 c1); [reflexivity|]. now destruct (p2 c1 c2).
  - destruct (p1 c1); [reflexivity|]. destruct (p2 c1 c2); [reflexivity|].
    now destruct (p3 c1 c2 c3).
Qed.

(** What [strip_one] removes is a non-empty prefix, and it removes the same
    from any longer string. *)
Lemma strip_one_prefix (s r : string) :
  strip_one p1 p2 p3 s = Some r ->
  exists p, s = (p ++ r)%string /\ p <> "" /\
            forall q, strip_one p1 p2 p3 (s ++ q) = Some (r ++ q)%string.
Proof.
  destruct s as [|c1 [|c2 [|c3 s3]]]; cbn; try discriminate.
  - destruct (p1 c1) eqn:E1; [|discriminate]. intros E. injection E as <-.
    exists (String c1 ""). split; [reflexivity|]. split; [discriminate|].
    intros q. rewrite string_append_cons. cbn. now rewrite E1.
  - destruct (p1 c1) eqn:E1.
    + intros E. injection E as <-.
      exists (String c1 ""). split; [reflexivity|]. split; [discriminate|].
      intros q. rewrite string_append_cons. cbn. now rewrite E1.
    + destruct (p2 c1 c2) eqn:E2; [|discriminate]. intros E. injection E as <-.
      exists (String c1 (String c2 "")). split; [reflexivity|]. split; [discriminate|].
      intros q. rewrite !string_append_cons. cbn. now rewrite E1, E2.
  - destruct (p1 c1) eqn:E1.
    + intros E. injection E as <-.
      exists (String c1 ""). split; [reflexivity|]. split; [discriminate|].
      intros q. rewrite string_append_cons. cbn. now rewrite E1.
    + destruct (p2 c1 c2) eqn:E2.
      * intros E. injection E as <-.
        exists (String c1 (String c2 "")). split; [reflexivity|]. split; [discriminate|].
        intros q. rewrite !string_append_cons. cbn. now rewrite E1, E2.
      * destruct (p3 c1 c2 c3) eqn:E3; [|discriminate]. intros E. injection E as <-.
        exists (String c1 (String c2 (String c3 ""))).
        split; [reflexivity|]. split; [discriminate|].
        intros q. rewrite !string_append_cons. cbn. now rewrite E1, E2, E3.
Qed.

Lemma strip_one_shorter (s r : string) :
  strip_one p1 p2 p3 s = Some r -> (String.length r < String.length s)%nat.
Proof.
  intros H. destruct (strip_one_prefix _ H) as (p & -> & Hp & _).
  rewrite string_length_append. destruct p; [congruence | cbn; lia].
Qed.

(** [strip_all] stops at a suffix that begins with no recognised character. *)
Lemma strip_all_stops (s : string) :
  strip_one p1 p2 p3 (strip_all p1 p2 p3 s) = None /\
  exists p, s = (p ++ strip_all p1 p2 p3 s)%string.
Proof.
  remember (String.length s) as n eqn:Hn.
  revert s Hn. induction n as [n IH] using (well_founded_induction lt_wf).
  intros s ->. rewrite strip_all_unfold.
  destruct (strip_one p1 p2 p3 s) as [r|] eqn:E.
  - destruct (IH _ (strip_one_shorter _ E) r eq_refl) as [Hstop [p Hp]].
    split; [exact Hstop|].
    destruct (strip_one_prefix _ E) as (p0 & -> & _ & _).
    exists (p0 ++ p)%string. rewrite string_append_assoc. now rewrite <- Hp.
  - split; [exact E|]. now exists "".
Qed.

Lemma strip_all_fixed (s : string) :
  strip_one p1 p2 p3 s = None -> strip_all p1 p2 p3 s = s.
Proof. intros H. now rewrite strip_all_unfold, H. Qed.

Lemma strip_all_idempotent (s : string) :
  strip_all p1 p2 p3 (strip_all p1 p2 p3 s) = strip_all p1 p2 p3 s.
Proof. apply strip_all_fixed, strip_all_stops. Qed.

Lemma strip_one_of_prefix (s q : string) :
  strip_one p1 p2 p3 (s ++ q) = None -> strip_one p1 p2 p3 s = None.
Proof.
  intros H. destruct (strip_one p1 p2 p3 s) as [r|] eqn:E; [|reflexivity].
  destruct (strip_one_prefix _ E) as (_ & _ & _ & Hq).
  rewrite Hq in H. discriminate.
Qed.
End StripLemmas.

Lemma trimEnd_prefix (s : string) : exists q, s = (trimEnd s ++ q)%string.
Proof.
  unfold trimEnd.
  destruct (strip_all_stops is_space (fun c2 c1 => is_space2 c1 c2)
              (fun c3 c2 c1 => is_space3 c1 c2 c3) (string_rev s)) as [_ [p Hp]].
  exists (string_rev p).
  rewrite <- string_rev_append, <- Hp. now rewrite string_rev_involutive.
Qed.

Lemma trimEnd_idempotent (s : string) : trimEnd (trimEnd s) = trimEnd s.
Proof.
  unfold trimEnd. now rewrite string_rev_involutive, strip_all_idempotent.
Qed.

Lemma trim_idempotent (s : string) : trim (trim s) = trim s.
Proof.
  unfold trim.
  destruct (strip_all_stops is_space is_space2 is_space3 s) as [Hstop _].
  fold (trimStart s) in Hstop.
  destruct (trimEnd_prefix (trimStart s)) as [q Hq].
  rewrite Hq in Hstop. apply strip_one_of_prefix in Hstop.
  unfold trimStart at 1. rewrite (strip_all_fixed _ _ _ _ Hstop).
  apply trimEnd_idempotent.
Qed.

Example trim_samples :
  trim "  New York " = "New York" /\
  trim (String (ascii_of_nat 9) (String (ascii_of_nat 10) "")) = "" /\
  trim (no_break_space ++ "Paris" ++ ideographic_space ++ " ") = "Paris" /\
  trim (no_break_space ++ ideographic_space) = "" /\
  trim ("a" ++ no_break_space ++ "b") = ("a" ++ no_break_space ++ "b")%string.
Proof. repeat split. Qed.

(** X10: [geocodeCity] trims the query itself, so it does not matter that
    [searchByCity] hands it a query that is already trimmed: the call, its
    request and its result are the same for a query and for the query
    trimmed. *)
Theorem geocodeCity_trims (w : World) (query : string) :
  geocodeCity w (trim query) = geocodeCity w query.
Proof. unfold geocodeCity. now rewrite trim_idempotent. Qed.

(** X11: [geocodeCity] returns exactly when the key is valid, the request
    is answered with an ok status and the body parses; it then returns the
    first candidate of the array, and [null] when the array is empty or the
    body is not an array.  It issues one request, for the trimmed query, or
    none when the key is invalid. *)
Theorem geocodeCity_returns_iff (w : World) (query : string)
  (r : option GeocodingResult) :
  (outcome (geocodeCity w query) = Ok r <->
   api_key_valid w /\
   exists resp data,
     http_geocode w (trim query) = Ok resp /\ resp_ok resp = true /\
     resp_json resp = Ok data /\ r = first_candidate data) /\
  trace (geocodeCity w query) =
    if api_key_invalid (trim (OPENWEATHER_API_KEY w)) then []
    else [Fetch (GetGeocode (trim query) (trim (OPENWEATHER_API_KEY w)))].
Proof.
  unfold api_key_valid, geocodeCity, outcome, trace, fetch.
  destruct (api_key_invalid _); cbn.
  { split; [|reflexivity]. split; [discriminate | intros [H _]; discriminate H]. }
  destruct (http_geocode w (trim query)) as [resp|et]; cbn.
  - destruct (resp_ok resp) eqn:Hok; cbn.
    + destruct (resp_json resp) as [data|ej] eqn:Hj; cbn.
      * split; [|reflexivity]. split.
        -- intros H. injection H as <-. split; [reflexivity|]. now exists resp, data.
        -- intros (_ & resp' & data' & E & _ & Hj' & ->).
           injection E as <-. rewrite Hj in Hj'. now injection Hj' as <-.
      * destruct (exn_message ej =? "")%string; cbn; (split; [|reflexivity]);
          (split; [discriminate|]);
          intros (_ & resp' & data' & E & _ & Hj' & _);
          injection E as <-; rewrite Hj in Hj'; discriminate.
    + assert (Hno : forall P : Prop,
                (True /\ exists resp' data,
                   Ok resp = Ok resp' /\ resp_ok resp' = true /\
                   resp_json resp' = Ok data /\ r = first_candidate data) -> P).
      { intros P (_ & resp' & data' & E & Hok' & _). injection E as <-. congruence. }
      destruct (resp_json resp) as [data|ej]; cbn.
      * destruct (resp_status resp =? 401); cbn;
          (split; [split; [discriminate | intros H; apply Hno; split; [exact I | apply H]]
                  | reflexivity]).
      * destruct (resp_text resp) as [text|ex]; cbn.
        -- destruct (resp_status resp =? 401); cbn;
             (split; [split; [discriminate | intros H; apply Hno; split; [exact I | apply H]]
                     | reflexivity]).
        -- destruct (exn_message ex =? "")%string; cbn;
             (split; [split; [discriminate | intros H; apply Hno; split; [exact I | apply H]]
                     | reflexivity]).
  - destruct (exn_message et =? "")%string; cbn; (split; [|reflexivity]);
      (split; [discriminate|]); intros (_ & resp' & data' & E & _); discriminate.
Qed.

Lemma geocodeCity_returns_iff_witness :
  outcome (geocodeCity world_paris "  Paris ") = Ok (Some paris).
Proof.
  apply (proj2 (proj1 (geocodeCity_returns_iff world_paris "  Paris " (Some paris)))).
  split; [reflexivity|].
  exists (ok_response (GeoArray [paris])), (GeoArray [paris]). repeat split.
Defined.

(** ** More on the intents *)

Ltac analyse_intent i :=
  destruct i; unfold outcome; unfold_intent; cbn;
  split_tests; name_calls; split_tests.

(** X12: no intent ever throws: every exception of the geocoder, of the
    fetcher and of the reading of the first weather element ends in the
    [catch] of the intent, so the promise an intent returns is always
    fulfilled. *)
Theorem intents_never_throw (w : World) (s : HookState) (i : Intent) :
  outcome (perform w s i) = Ok tt.
Proof. analyse_intent i; reflexivity. Qed.

(** X13: an intent that enters loading leaves it, unless it waits for a
    position that never comes.  Requests are answered or fail, none hangs.
    When the trace of an intent sets the loading state, the state it ends in
    is loading exactly when the intent is the mount effect or the refresh by
    geolocation and the position request is left unanswered (neither of the
    two callbacks of [getCurrentPosition] is called); in every other case it
    ends in success, error or idle. *)
Theorem intents_settle (w : World) (s : HookState) (i : Intent) :
  In (SetFetchState loading) (trace (perform w s i)) ->
  (position w = PositionPending /\ (i = Mount \/ i = RefreshWithGeo) ->
   s_fetchState (run s (perform w s i)) = loading /\
   isLoading (run s (perform w s i)) = true) /\
  (~ (position w = PositionPending /\ (i = Mount \/ i = RefreshWithGeo)) ->
   s_fetchState (run s (perform w s i)) <> loading /\
   isLoading (run s (perform w s i)) = false).
Proof.
  analyse_intent i; intros Hin.
  all: try (exfalso; in_trace Hin; fail).
  all: clear Hin; unfold isLoading; fold_events; cbn.
  all: split; [intros [Hp [Hi|Hi]] | intros Hn].
  all: try discriminate.
  all: try (split; [discriminate | reflexivity]).
  all: try (split; reflexivity).
  all: exfalso; apply Hn; split; [reflexivity | auto].
Qed.

Lemma intents_settle_witness :
  s_fetchState (run (state_searching "Paris")
                  (perform world_offline (state_searching "Paris") SearchByCity))
  <> loading /\
  s_fetchState (run state_paris (perform world_prompt_open state_paris RefreshWithGeo))
  = loading.
Proof.
  split.
  - apply (proj2 (intents_settle world_offline (state_searching "Paris") SearchByCity
                    (or_introl eq_refl))).
    intros [_ [H|H]]; discriminate H.
  - apply (proj1 (intents_settle world_prompt_open state_paris RefreshWithGeo
                    (or_introl eq_refl))).
    split; [reflexivity | right; reflexivity].
Defined.

(** X14: the snapshot and the background kind change only together with
    success: an intent whose trace does not set the success state leaves
    both as they were. *)
Theorem failure_keeps_snapshot (w : World) (s : HookState) (i : Intent) :
  ~ In (SetFetchState success) (trace (perform w s i)) ->
  s_weather (run s (perform w s i)) = s_weather s /\
  s_backgroundKind (run s (perform w s i)) = s_backgroundKind s.
Proof.
  analyse_intent i; intros Hno.
  all: try (exfalso; apply Hno; cbn; repeat (rewrite in_app_iff; cbn);
            repeat first [left; reflexivity | right]; fail).
  all: clear Hno; fold_events; cbn; split; congruence.
Qed.

Lemma failure_keeps_snapshot_witness :
  s_weather (run state_paris (perform world_offline state_paris RefreshWithGeo))
  = s_weather state_paris.
Proof.
  apply (failure_keeps_snapshot world_offline state_paris RefreshWithGeo).
  vm_compute. intros H.
  repeat match goal with
         | H : _ \/ _ |- _ => destruct H as [H|H]
         | H : _ = _ |- _ => discriminate H
         | H : False |- _ => destruct H
         end.
Defined.

(** X15: what an intent leaves alone.  No intent changes the search query;
    only a unit change changes the unit system, and a unit change never
    changes the search mode. *)
Theorem intents_frame (w : World) (s : HookState) (i : Intent) :
  s_searchQuery (run s (perform w s i)) = s_searchQuery s /\
  ((forall next, i <> ChangeUnits next) -> s_units (run s (perform w s i)) = s_units s) /\
  ((exists next, i = ChangeUnits next) ->
   s_searchMode (run s (perform w s i)) = s_searchMode s).
Proof.
  analyse_intent i.
  all: split; [fold_events; reflexivity|].
  all: split; [intros Hn; try (exfalso; eapply Hn; reflexivity); fold_events; reflexivity|].
  all: intros [next' Hi]; try discriminate Hi; fold_events; reflexivity.
Qed.

Lemma intents_frame_witness :
  s_units (run state_paris (perform world_paris state_paris SearchByCity)) = metric.
Proof.
  apply (proj1 (proj2 (intents_frame world_paris state_paris SearchByCity))).
  discriminate.
Defined.

(** ** The cells of the hook agree *)

Lemma perform_coherent (w : World) (s : HookState) (i : Intent) :
  coherent s -> coherent (run s (perform w s i)).
Proof.
  unfold coherent. intros (Hs & Hw & Hn).
  analyse_intent i.
  all: fold_events; cbn.
  all: repeat split;
    try (intros E; first [discriminate E | congruence | apply Hs; congruence
                         | exfalso; apply (Hs E); reflexivity]);
    try (intros r0 E; first [discriminate E
                            | injection E as <-; cbn; eauto
                            | apply Hw; congruence]);
    try (intros E; first [discriminate E | apply Hn; congruence]).
Qed.

Lemma reachable_coherent (s : HookState) : reachable s -> coherent s.
Proof.
  induction 1 as [|s q _ IH|w s i _ IH].
  - unfold coherent. cbn. repeat split; try discriminate; congruence.
  - exact IH.
  - now apply perform_coherent.
Qed.

(** X16: in every reachable state of the hook the cells agree: the success
    state comes with a snapshot, the snapshot has a first weather element,
    the background kind is the class of that element, and without a
    snapshot the background kind is still cloudy. *)
Theorem reachable_states_coherent (s : HookState) :
  reachable s ->
  (s_fetchState s = success -> exists r, s_weather s = Some r) /\
  (forall r, s_weather s = Some r ->
     exists head rest,
       oc_weather (current r) = head :: rest /\
       s_backgroundKind s = classifyBackground (w_main head) (w_id head)) /\
  (s_weather s = None -> s_backgroundKind s = cloudy).
Proof.
  intros Hr. destruct (reachable_coherent Hr) as (Hs & Hw & Hn).
  split; [|split; assumption].
  intros E. specialize (Hs E). destruct (s_weather s) as [r|]; [eauto | congruence].
Qed.

Lemma reachable_states_coherent_witness :
  exists r, s_weather state_paris = Some r.
Proof.
  refine (proj1 (@reachable_states_coherent state_paris _) _).
  - exact (reachable_perform world_paris SearchByCity
             (reachable_query "Paris" reachable_initial)).
  - reflexivity.
Defined.

(** X17: [App] can always render its summary: in every reachable state
    [currentSummary] returns, [null] without a snapshot and the first
    weather element of the snapshot otherwise; its unguarded read of
    [head.main] never throws there. *)
Theorem currentSummary_never_throws (s : HookState) :
  reachable s ->
  (s_weather s = None -> currentSummary (s_weather s) = Ok None) /\
  (forall r, s_weather s = Some r ->
     exists head rest,
       oc_weather (current r) = head :: rest /\
       currentSummary (s_weather s)
         = Ok (Some {| sm_main := w_main head;
                       sm_description := w_description head;
                       sm_id := w_id head |})).
Proof.
  intros Hr. destruct (reachable_coherent Hr) as (_ & Hw & _).
  split.
  - now intros ->.
  - intros r E. destruct (Hw r E) as (head & rest & Hh & _).
    exists head, rest. split; [exact Hh|]. rewrite E. cbn. now rewrite Hh.
Qed.

Lemma currentSummary_never_throws_witness :
  currentSummary (s_weather initial_state) = Ok None.
Proof.
  apply (proj1 (@currentSummary_never_throws initial_state reachable_initial)).
  reflexivity.
Defined.

(** ** The forecast strip *)

(** X18: the forecast strip of [App] shows the days after the first.  A
    snapshot that an intent installed comes from the forecast body that the
    world answered to the forecast request of the intent's fetch;
    [forecastDays] is empty when the usable sample list of that body is
    empty, and otherwise it holds the summaries of the second to the sixth
    UTC day of those samples, in first-seen order, each the summary of the
    samples of its day; it never has more than five entries. *)
Theorem forecastDays_skip_first_day (w : World) (s : HookState) (i : Intent)
  (r : ResolvedWeather) :
  In (SetWeather r) (trace (perform w s i)) ->
  (List.length (forecastDays (Some r)) <= 5)%nat /\
  exists la lo u rf forecast,
    fetch_site w s i = Some (la, lo, u) /\
    http_forecast w la lo u = Ok rf /\ resp_json rf = Ok forecast /\
    (forecast_list forecast = [] -> forecastDays (Some r) = []) /\
    Forall2 (fun first d => summarises (samples_of_day first (forecast_list forecast)) d)
      (firstn 5 (skipn 1 (day_leaders (forecast_list forecast))))
      (forecastDays (Some r)).
Proof.
  intros Hin. split.
  { unfold forecastDays, slice. apply firstn_le_length. }
  destruct (perform_SetWeather_bodies w s i r Hin)
    as (la & lo & u & rc & rf & cur & forecast & Hsite & _ & _ & Hrf & Hjf & _ & Hd).
  exists la, lo, u, rf, forecast. do 3 (split; [assumption|]).
  destruct (build_oneCall_daily cur forecast) as (_ & Hagg & Hsyn).
  unfold forecastDays, slice. rewrite Hd.
  destruct (forecast_list forecast) as [|x items] eqn:Hl.
  - rewrite Hsyn by reflexivity. split; [reflexivity | constructor].
  - split; [discriminate|].
    rewrite Hagg.
    + replace (firstn 5 (skipn 1 (day_leaders (x :: items))))
        with (firstn (6 - 1) (skipn 1 (firstn 8 (day_leaders (x :: items))))).
      * apply aggregate_summaries.
      * rewrite skipn_firstn_comm, firstn_firstn. reflexivity.
    + rewrite aggregate_by_leaders. cbn. discriminate.
Qed.

Lemma forecastDays_skip_first_day_witness :
  exists r,
    In (SetWeather r)
      (trace (perform world_paris (state_searching "Paris") SearchByCity)) /\
    map (fun d => (d_dt d, d_min d, d_max d, d_day d)) (forecastDays (Some r))
    = [(1700006400, 9, 19, 16); (1700092800, 7, 11, 9)] /\
    (List.length (forecastDays (Some r)) <= 5)%nat.
Proof.
  assert (H : exists r,
             In (SetWeather r)
               (trace (perform world_paris (state_searching "Paris") SearchByCity)) /\
             map (fun d => (d_dt d, d_min d, d_max d, d_day d)) (forecastDays (Some r))
             = [(1700006400, 9, 19, 16); (1700092800, 7, 11, 9)]).
  { eexists. split.
    - vm_compute. repeat first [left; reflexivity | right].
    - reflexivity. }
  destruct H as (r & Hin & Hdays). exists r. split; [exact Hin|]. split; [exact Hdays|].
  exact (proj1 (@forecastDays_skip_first_day world_paris
                  (state_searching "Paris") SearchByCity r Hin)).
Defined.

(** ** The requests of an intent *)

Lemma geocodeCity_trace (w : World) (query : string) :
  trace (geocodeCity w query) =
  if api_key_invalid (trim (OPENWEATHER_API_KEY w)) then []
  else [Fetch (GetGeocode (trim query) (trim (OPENWEATHER_API_KEY w)))].
Proof.
  unfold geocodeCity, trace, fetch.
  destruct (api_key_invalid _); [reflexivity|].
  destruct (http_geocode w (trim query)) as [resp|et]; cbn.
  - destruct (resp_ok resp); cbn.
    + destruct (resp_json resp) as [data|ej]; cbn; [reflexivity|].
      destruct (exn_message ej =? "")%string; reflexivity.
    + destruct (resp_json resp) as [data|ej]; cbn.
      * destruct (resp_status resp =? 401); cbn;
          rewrite eqb_append_literal; reflexivity.
      * destruct (resp_text resp) as [text|ex]; cbn.
        -- destruct (resp_status resp =? 401); cbn;
             rewrite eqb_append_literal; reflexivity.
        -- destruct (exn_message ex =? "")%string; reflexivity.
  - destruct (exn_message et =? "")%string; reflexivity.
Qed.

(** Replaces the traces of the calls of an intent by the requests they
    hold. *)
Ltac know_traces :=
  repeat match goal with
  | H : fetchOneCall ?w ?a ?b ?u = (?l, _) |- _ =>
      is_var l;
      let T := fresh "T" in
      pose proof (fetchOneCall_trace w a b u) as T;
      rewrite H in T; unfold trace in T; cbn [fst] in T; subst l
  | H : geocodeCity ?w ?q = (?l, _) |- _ =>
      is_var l;
      let T := fresh "T" in
      pose proof (geocodeCity_trace w q) as T;
      rewrite H in T; unfold trace in T; cbn [fst] in T; subst l
  | H : reverseGeocode ?w ?a ?b = (?l, _) |- _ =>
      is_var l;
      let T := fresh "T" in
      pose proof (reverseGeocode_trace w a b) as T;
      rewrite H in T; unfold trace in T; cbn [fst] in T; subst l
  end.

Ltac same_request :=
  repeat match goal with
  | H : @eq Request _ _ |- _ =>
      first [discriminate H | injection H; clear H; intros; subst]
  end.

(** X19: the weather requests of an intent are the pair of its fetch: any
    request for current conditions or for the forecast in the trace of an
    intent is for the coordinates at which the intent fetches, carries the
    trimmed key and the unit system of the intent (the requested one for a
    unit change, the stored one otherwise), and comes with its twin. *)
Theorem weather_requests_of_intent (w : World) (s : HookState) (i : Intent)
  (la lo : number) (k : string) (u : Units) :
  In (Fetch (GetCurrent la lo k u)) (trace (perform w s i)) \/
  In (Fetch (GetForecast la lo k u)) (trace (perform w s i)) ->
  fetch_site w s i = Some (la, lo, u) /\
  u = fetch_units s i /\
  k = trim (OPENWEATHER_API_KEY w) /\
  In (Fetch (GetCurrent la lo k u)) (trace (perform w s i)) /\
  In (Fetch (GetForecast la lo k u)) (trace (perform w s i)).
Proof.
  destruct (api_key_invalid (trim (OPENWEATHER_API_KEY w))) eqn:Hkey.
  all: analyse_intent i; know_traces; rewrite ?Hkey in *.
  all: intros [Hin|Hin]; in_trace Hin; same_request.
  all: repeat split; cbn; tauto.
Qed.

Lemma weather_requests_of_intent_witness :
  fetch_site world_offline state_paris (ChangeUnits imperial) = Some (4885, 235, imperial).
Proof.
  refine (proj1 (@weather_requests_of_intent world_offline state_paris
                   (ChangeUnits imperial) 4885 235
                   "b41041e3afb56d1f28980fed79937920" imperial _)).
  left. vm_compute. repeat first [left; reflexivity | right].
Defined.

(** X20: nothing is retried: an intent issues at most three network
    requests and asks for the position at most once. *)
Theorem intents_request_budget (w : World) (s : HookState) (i : Intent) :
  (List.length (filter is_network_call (trace (perform w s i))) <= 3)%nat /\
  (count_occ (fun a b : bool => Bool.bool_dec a b)
     (map (fun ev => match ev with GetCurrentPosition => true | _ => false end)
        (trace (perform w s i))) true <= 1)%nat.
Proof.
  destruct (api_key_invalid (trim (OPENWEATHER_API_KEY w))) eqn:Hkey.
  all: analyse_intent i; know_traces; rewrite ?Hkey in *.
  all: cbn; split; lia.
Qed.

(** ** The outcomes of the intents *)

(** X21: what a search shows when the geocoder finds nothing or fails.  For
    a query that is not blank: when the geocoder returns [null] the hook
    ends in error with the "No results" message, and when the geocoder
    throws it ends in error with the geocoder's own message, never the
    fallback text of the hook.  Either way no weather request is issued and the
    snapshot and the background kind stay as they were. *)
Theorem search_without_place (w : World) (s : HookState) :
  trim (s_searchQuery s) <> "" ->
  (outcome (geocodeCity w (trim (s_searchQuery s))) = Ok None ->
   s_error (run s (searchByCity w s))
     = Some "No results for that city. Try another name.") /\
  (forall e,
     outcome (geocodeCity w (trim (s_searchQuery s))) = Throw e ->
     s_error (run s (searchByCity w s)) = Some (exn_message e)) /\
  ((forall g, outcome (geocodeCity w (trim (s_searchQuery s))) <> Ok (Some g)) ->
   s_fetchState (run s (searchByCity w s)) = error /\
   s_weather (run s (searchByCity w s)) = s_weather s /\
   s_backgroundKind (run s (searchByCity w s)) = s_backgroundKind s /\
   forall la lo k u,
     ~ In (Fetch (GetCurrent la lo k u)) (trace (searchByCity w s)) /\
     ~ In (Fetch (GetForecast la lo k u)) (trace (searchByCity w s))).
Proof.
  intros Hq. apply String.eqb_neq in Hq.
  pose proof (@geocodeCity_thrown_message w (trim (s_searchQuery s))) as Hmsg.
  unfold searchByCity, outcome in *. rewrite Hq.
  pose proof (geocodeCity_trace w (trim (s_searchQuery s))) as T.
  destruct (geocodeCity w (trim (s_searchQuery s))) as [l [[g|]|e]]; cbn in *; subst l.
  - split; [discriminate|]. split; [discriminate|].
    intros Hno. exfalso. now apply (Hno g).
  - split; [intros _|split; [discriminate|intros _]].
    + fold_events. rewrite run_network_calls by (destruct (api_key_invalid _); reflexivity).
      reflexivity.
    + destruct (api_key_invalid _); cbn; repeat split; intros Hin; in_trace Hin.
  - specialize (Hmsg e eq_refl). apply String.eqb_neq in Hmsg.
    split; [discriminate|]. split; [|intros _].
    + intros e' He'. injection He' as <-.
      unfold str_or. rewrite Hmsg.
      destruct (api_key_invalid _); reflexivity.
    + destruct (api_key_invalid _); cbn; repeat split; intros Hin; in_trace Hin.
Qed.

Lemma search_without_place_witness :
  s_error (run (state_searching "Paris")
             (searchByCity world_offline (state_searching "Paris")))
  = Some "Failed to fetch".
Proof.
  refine (proj1 (proj2 (@search_without_place world_offline (state_searching "Paris") _))
            failed_to_fetch _).
  - discriminate.
  - reflexivity.
Defined.

(** X22: the mount effect without a position.  Without geolocation in the
    browser the effect does nothing at all: no event, so the hook stays as
    it is and no default city is loaded.  When the position is refused the
    effect geocodes "New York": if that finds nothing the hook settles on
    idle with the error message it had and no snapshot change; if it throws
    the hook settles on idle with "Unable to load default city: " followed
    by the geocoder's message. *)
Theorem mount_without_position (w : World) (s : HookState) :
  (has_geolocation w = false -> trace (mountEffect w s) = []) /\
  (has_geolocation w = true -> position w = PositionError ->
   (outcome (geocodeCity w "New York") = Ok None ->
    s_fetchState (run s (mountEffect w s)) = idle /\
    s_error (run s (mountEffect w s)) = s_error s /\
    s_weather (run s (mountEffect w s)) = s_weather s) /\
   (forall e,
      outcome (geocodeCity w "New York") = Throw e ->
      s_fetchState (run s (mountEffect w s)) = idle /\
      s_error (run s (mountEffect w s))
        = Some ("Unable to load default city: " ++ exn_message e) /\
      s_weather (run s (mountEffect w s)) = s_weather s)).
Proof.
  unfold mountEffect, loadDefaultCity. split.
  - intros ->. reflexivity.
  - intros -> ->. cbn.
    pose proof (@geocodeCity_thrown_message w "New York") as Hmsg.
    pose proof (geocodeCity_network_only w "New York") as Hnet.
    unfold outcome, network_only, trace in *.
    destruct (geocodeCity w "New York") as [l [[g|]|e]]; cbn in *.
    + split; [discriminate | intros e He; discriminate He].
    + split; [intros _ | intros e He; discriminate He].
      fold_events. cbn. repeat split.
    + split; [discriminate|]. intros e' He'. injection He' as <-.
      specialize (Hmsg e eq_refl). apply String.eqb_neq in Hmsg.
      fold_events. cbn. unfold str_or. rewrite Hmsg. repeat split.
Qed.

Lemma mount_without_position_witness :
  s_fetchState
    (run initial_state
       (mountEffect
          {| env_api_key := None; has_geolocation := true; position := PositionError;
             http_geocode := fun _ => Throw failed_to_fetch;
             http_reverse := http_reverse world_paris;
             http_current := http_current world_paris;
             http_forecast := http_forecast world_paris;
             forecast_rejects_first := fun _ _ _ => false |} initial_state))
  = idle.
Proof.
  refine (proj1 (proj2 (proj2 (@mount_without_position
            {| env_api_key := None; has_geolocation := true; position := PositionError;
               http_geocode := fun _ => Throw failed_to_fetch;
               http_reverse := http_reverse world_paris;
               http_current := http_current world_paris;
               http_forecast := http_forecast world_paris;
             forecast_rejects_first := fun _ _ _ => false |} initial_state)
            eq_refl eq_refl) failed_to_fetch _)).
  reflexivity.
Defined.

(** X23: a unit change that succeeds replaces the data and keeps the
    place: the new snapshot has the label and the country code of the old
    one and the conditions, days, offset and coordinates of the fresh
    answer; the unit system is the requested one, the error message is
    cleared and the state is success. *)
Theorem unit_change_keeps_place (w : World) (s : HookState) (next : Units)
  (snapshot : ResolvedWeather) (fresh : OneCallResponse) :
  next <> s_units s ->
  s_weather s = Some snapshot ->
  outcome (fetchOneCall w (lat snapshot) (lon snapshot) next) = Ok fresh ->
  oc_weather (o_current fresh) <> [] ->
  s_units (run s (handleUnitsChange w s next)) = next /\
  s_fetchState (run s (handleUnitsChange w s next)) = success /\
  s_error (run s (handleUnitsChange w s next)) = None /\
  s_weather (run s (handleUnitsChange w s next))
    = Some {| locationName := locationName snapshot;
              countryCode := countryCode snapshot;
              current := o_current fresh;
              daily := o_daily fresh;
              timezoneOffset := o_timezone_offset fresh;
              lat := o_lat fresh;
              lon := o_lon fresh |}.
Proof.
  intros Hne Hw Hfetch Hhead.
  unfold handleUnitsChange, setBackgroundKind_of_head, outcome in *.
  destruct (Units_eqb_spec next (s_units s)); [contradiction|].
  rewrite Hw. cbn. name_calls.
  destruct (oc_weather (o_current fresh)) as [|h t]; [congruence|]. cbn.
  fold_events. cbn. repeat split.
Qed.

Lemma unit_change_keeps_place_witness :
  option_map locationName
    (s_weather (run state_paris (handleUnitsChange world_paris state_paris imperial)))
  = Some "Paris, Ile-de-France, FR".
Proof.
  destruct (@unit_change_keeps_place world_paris state_paris imperial
       {| locationName := "Paris, Ile-de-France, FR"; countryCode := Some "FR";
          current := o_current (build_oneCall paris_current paris_forecast);
          daily := o_daily (build_oneCall paris_current paris_forecast);
          timezoneOffset := 3600; lat := 4885; lon := 235 |}
       (build_oneCall paris_current paris_forecast))
    as (_ & _ & _ & H).
  - discriminate.
  - reflexivity.
  - reflexivity.
  - discriminate.
  - rewrite H. reflexivity.
Defined.

(** X24: a search that succeeds installs the place it found: the snapshot
    is labelled with the place name, its state when it has one other than
    the name, and its country; the country code is the place's; the search
    mode is city, the error message is cleared and the state is success. *)
Theorem search_installs_place (w : World) (s : HookState) (g : GeocodingResult)
  (oneCall : OneCallResponse) :
  trim (s_searchQuery s) <> "" ->
  outcome (geocodeCity w (trim (s_searchQuery s))) = Ok (Some g) ->
  outcome (fetchOneCall w (g_lat g) (g_lon g) (s_units s)) = Ok oneCall ->
  oc_weather (o_current oneCall) <> [] ->
  s_fetchState (run s (searchByCity w s)) = success /\
  s_searchMode (run s (searchByCity w s)) = city_mode /\
  s_error (run s (searchByCity w s)) = None /\
  s_weather (run s (searchByCity w s))
    = Some {| locationName := buildLocationLabel (Some g) (Some (g_name g));
              countryCode := g_country g;
              current := o_current oneCall;
              daily := o_daily oneCall;
              timezoneOffset := o_timezone_offset oneCall;
              lat := o_lat oneCall;
              lon := o_lon oneCall |}.
Proof.
  intros Hq Hgeo Hfetch Hhead. apply String.eqb_neq in Hq.
  unfold searchByCity, setBackgroundKind_of_head, outcome in *. rewrite Hq.
  name_calls.
  destruct (oc_weather (o_current oneCall)) as [|h t]; [congruence|]. cbn.
  fold_events. cbn. repeat split.
Qed.

Lemma search_installs_place_witness :
  s_searchMode (run (state_searching "Paris")
                  (searchByCity world_paris (state_searching "Paris")))
  = city_mode.
Proof.
  refine (proj1 (proj2 (@search_installs_place world_paris (state_searching "Paris")
                          paris (build_oneCall paris_current paris_forecast) _ _ _ _))).
  - discriminate.
  - reflexivity.
  - reflexivity.
  - discriminate.
Defined.

(** ** The location label *)

(** X25: the label of a place begins with its name and does not depend on
    the fallback; a state that is empty or equal to the name is left out,
    so the name is not shown twice; without a place the label is the
    fallback, or "Current location" when there is none. *)
Theorem buildLocationLabel_shape (g : GeocodingResult) (fallback : option string) :
  starts_with (g_name g) (buildLocationLabel (Some g) fallback) = true /\
  buildLocationLabel (Some g) fallback = buildLocationLabel (Some g) None /\
  (g_state g = Some (g_name g) \/ g_state g = Some "" ->
   buildLocationLabel (Some g) fallback =
   buildLocationLabel
     (Some {| g_name := g_name g; g_lat := g_lat g; g_lon := g_lon g;
              g_country := g_country g; g_state := None |}) fallback) /\
  buildLocationLabel None fallback
    = match fallback with Some f => f | None => "Current location" end.
Proof.
  assert (Hself : forall x : string, starts_with x x = true).
  { intros x. induction x as [|c x IH]; [reflexivity|].
    cbn. now rewrite Ascii.eqb_refl. }
  unfold buildLocationLabel. split; [|split; [reflexivity|split; [|reflexivity]]].
  - destruct (g_state g) as [st|]; destruct (g_country g) as [c|];
      repeat match goal with
      | |- context [if ?b then _ else _] => destruct b
      end; cbn [app join_comma];
      first [apply Hself | apply starts_with_append].
  - intros [E|E]; rewrite E; cbn [g_state g_name g_country].
    + now rewrite String.eqb_refl, andb_false_r.
    + reflexivity.
Qed.

Lemma buildLocationLabel_shape_witness :
  buildLocationLabel
    (Some {| g_name := "Berlin"; g_lat := 5252; g_lon := 1340;
             g_country := Some "DE"; g_state := Some "Berlin" |}) None
  = "Berlin, DE".
Proof.
  rewrite (proj1 (proj2 (proj2 (buildLocationLabel_shape
             {| g_name := "Berlin"; g_lat := 5252; g_lon := 1340;
                g_country := Some "DE"; g_state := Some "Berlin" |} None)))
             (or_introl eq_refl)).
  reflexivity.
Defined.
